(** * StockSight: the persistence store and the cache-fallback fetch

    A shallow embedding of [database.py] (the SQLAlchemy models and the
    store operations) and of [fetch_data] from [app.py], followed by the
    properties of the stale-cache fallback, the price-bar refresh and the
    watchlist.

    Conventions of the embedding:
    - a [datetime] is a point on a time line counted in microseconds;
    - Python floats are binary64 floats; they are only stored and returned;
    - a table is the list of its rows in insertion order, except
      [company_info], whose [symbol] column is declared [unique=True] and
      which is therefore a finite map keyed by the symbol;
    - the surrogate key [id] (a random UUID) is read by no operation and is
      left out of the rows;
    - an exception is a value of [exn]; code that may raise has a result of
      type [outcome];
    - [st.error] only writes to the page and is not part of the state. *)

From Stdlib Require Import ZArith String Floats.PrimFloat.
From stdpp Require Import base list strings gmap sorting.

Local Open Scope string_scope.
Local Open Scope list_scope.
Local Open Scope Z_scope.

(** ** Time *)

Definition datetime := Z.

(** [timedelta(days=d)], in microseconds. *)
Definition timedelta (days : Z) : Z := days * 86400000000.

(** ** Python values stored in dictionaries and nullable columns *)

Inductive pyvalue :=
| PyNone
| PyStr (s : string)
| PyFloat (f : float)
| PyInt (n : Z).

Abbreviation InfoDict := (gmap string pyvalue).

(** [d.get(key, default)] *)
Definition dict_get (d : InfoDict) (key : string) (default : pyvalue) : pyvalue :=
  match d !! key with
  | Some v => v
  | None => default
  end.

(** ** Models (the rows of the three tables in use) *)

Module StockData.
Record t := mk {
  symbol : string;
  date : datetime;
  open_price : float;
  high_price : float;
  low_price : float;
  close_price : float;
  volume : Z;
  created_at : datetime
}.
End StockData.

Module CompanyInfo.
Record t := mk {
  company_name : pyvalue;
  sector : pyvalue;
  industry : pyvalue;
  market_cap : pyvalue;
  pe_ratio : pyvalue;
  dividend_yield : pyvalue;
  fifty_two_week_high : pyvalue;
  fifty_two_week_low : pyvalue;
  business_summary : pyvalue;
  last_updated : datetime
}.
End CompanyInfo.

Module UserWatchlist.
Record t := mk {
  symbol : string;
  added_at : datetime;
  is_active : bool
}.
End UserWatchlist.

Record Store := mkStore {
  stock_data : list StockData.t;
  company_info : gmap string CompanyInfo.t;
  user_watchlist : list UserWatchlist.t
}.

(** The tables right after [init_database] on a fresh database. *)
Definition empty_store : Store := mkStore [] ∅ [].

(** ** Data frames of price bars (index [Date], columns OHLCV) *)

Module Bar.
Record t := mk {
  Date : datetime;
  Open : float;
  High : float;
  Low : float;
  Close : float;
  Volume : Z
}.
End Bar.

Abbreviation DataFrame := (list Bar.t).

(** ** Exceptions *)

Record exn := mkExn { exn_class : string; exn_msg : string }.

Definition ValueError (msg : string) : exn := mkExn "ValueError" msg.
Definition UnboundLocalError (name : string) : exn :=
  mkExn "UnboundLocalError"
        ("cannot access local variable '" ++ name
           ++ "' where it is not associated with a value")%string.

(** [str(e)] *)
Definition str (e : exn) : string := exn_msg e.

Inductive outcome (A : Type) :=
| Returned (a : A)
| Raised (e : exn).
Arguments Returned {A} a.
Arguments Raised {A} e.

Definition returns {A} (o : outcome A) : Prop :=
  match o with Returned _ => True | Raised _ => False end.

(** ** Sessions

    [SessionLocal] is made with [autocommit=False, autoflush=False]: SQL sent
    through the session ([query(..).delete()], [execute(update(..))]) acts on
    the open transaction; objects given to [add] wait in [new] until
    [commit] flushes them; [rollback] and [close] drop whatever is not
    committed.

    Any statement sent to the database, and any conversion of a cell of a
    data frame, may raise.  Which ones do is fixed by a [fault_plan]: the
    [n]-th such point of a session raises [e] when the plan maps [n] to
    [Some e]. *)

Definition fault_plan := nat → option exn.
Definition no_faults : fault_plan := λ _, None.

Inductive Obj :=
| NewStockData (symbol : string) (date : datetime)
               (open_price high_price low_price close_price : float) (volume : Z)
| NewCompanyInfo (symbol : string)
                 (company_name sector industry market_cap pe_ratio dividend_yield
                  fifty_two_week_high fifty_two_week_low business_summary : pyvalue)
| NewUserWatchlist (symbol : string).

Record Env := mkEnv {
  now : datetime;        (* datetime.now() *)
  utcnow : datetime;     (* datetime.utcnow() *)
  plan : fault_plan
}.

Record Session := mkSession {
  committed : Store;
  txn : Store;
  new : list Obj;
  points : nat
}.

(** Code with a state of type [S] that returns or raises. *)
Definition prog (S A : Type) : Type := S → outcome A * S.

Definition ret {S A} (a : A) : prog S A := λ s, (Returned a, s).

Definition bind {S A B} (m : prog S A) (k : A → prog S B) : prog S B :=
  λ s, match m s with
       | (Returned a, s') => k a s'
       | (Raised e, s') => (Raised e, s')
       end.

Notation "'do' x <- m ; k" := (bind m (λ x, k))
  (at level 10, x name, m at level 100, k at level 200).
Notation "m ;; k" := (bind m (λ _, k))
  (at level 100, k at level 200, right associativity).

Definition raise {S A} (e : exn) : prog S A := λ s, (Raised e, s).

(** [try: body except Exception as e: handler e] *)
Definition try_except {S A} (body : prog S A) (handler : exn → prog S A) : prog S A :=
  λ s, match body s with
       | (Returned a, s') => (Returned a, s')
       | (Raised e, s') => handler e s'
       end.

(** [try: x = m; rest x except Exception as e: handler e], for a handler
    that reads locals of the body: [handler] is the handler as it runs when
    [m] raises, before [x] is bound; [rest] carries its own handler. *)
Definition try_let {S A B} (m : prog S A) (handler : exn → prog S B)
    (rest : A → prog S B) : prog S B :=
  λ s, match m s with
       | (Returned a, s') => rest a s'
       | (Raised e, s') => handler e s'
       end.

(** [try: m finally: fin]: [fin] runs on both exits; the result is that of
    [m] unless [fin] itself raises. *)
Definition try_finally {S A} (m : prog S A) (fin : prog S unit) : prog S A :=
  λ s, match m s with
       | (r, s') =>
           match fin s' with
           | (Returned _, s'') => (r, s'')
           | (Raised e, s'') => (Raised e, s'')
           end
       end.

Abbreviation db := (prog Session).

(** A point at which the fault plan may raise. *)
Definition point (env : Env) : db unit :=
  λ s, let s' := mkSession (committed s) (txn s) (new s) (S (points s)) in
       match plan env (points s) with
       | Some e => (Raised e, s')
       | None => (Returned (), s')
       end.

Definition get_txn : db Store := λ s, (Returned (txn s), s).

Definition set_txn (t : Store) : db unit :=
  λ s, (Returned (), mkSession (committed s) t (new s) (points s)).

(** [db.add(obj)] *)
Definition add (o : Obj) : db unit :=
  λ s, (Returned (), mkSession (committed s) (txn s) (new s ++ [o]) (points s)).

(** The INSERT of one pending object; the column defaults
    ([datetime.utcnow], [is_active=True]) are filled in here. *)
Definition insert_obj (env : Env) (t : Store) (o : Obj) : Store :=
  match o with
  | NewStockData sym d o h l c v =>
      mkStore (stock_data t ++ [StockData.mk sym d o h l c v (utcnow env)])
              (company_info t) (user_watchlist t)
  | NewCompanyInfo sym n se i m p dy hi lo su =>
      mkStore (stock_data t)
              (<[sym := CompanyInfo.mk n se i m p dy hi lo su (utcnow env)]> (company_info t))
              (user_watchlist t)
  | NewUserWatchlist sym =>
      mkStore (stock_data t) (company_info t)
              (user_watchlist t ++ [UserWatchlist.mk sym (utcnow env) true])
  end.

Definition flush (env : Env) (t : Store) (objs : list Obj) : Store :=
  foldl (insert_obj env) t objs.

(** [db.commit()]: flush the pending objects, then COMMIT. *)
Definition commit (env : Env) : db unit :=
  point env ;;
  λ s, let t := flush env (txn s) (new s) in
       (Returned (), mkSession t t [] (points s)).

(** [db.rollback()] *)
Definition rollback : db unit :=
  λ s, (Returned (), mkSession (committed s) (committed s) [] (points s)).

(** [db.close()]: what is not committed is dropped. *)
Definition close : db unit := rollback.

(** [db = get_db()], the body, and the store the database is left with. *)
Definition with_session {A} (m : db A) (st : Store) : outcome A * Store :=
  match m (mkSession st st [] 0) with
  | (r, s) => (r, committed s)
  end.

(** [for x in xs: body x] *)
Fixpoint for_each {X} (xs : list X) (body : X → db unit) : db unit :=
  match xs with
  | [] => ret ()
  | x :: xs' => body x ;; for_each xs' body
  end.

(** ** Queries *)

(** [ORDER BY key] (ascending).  SQL leaves the order of rows with equal keys
    open; the model keeps them in table order. *)
Fixpoint insert_by {X} (key : X → Z) (x : X) (l : list X) : list X :=
  match l with
  | [] => [x]
  | y :: l' => if decide (key x < key y) then x :: l else y :: insert_by key x l'
  end.

Fixpoint order_by {X} (key : X → Z) (l : list X) : list X :=
  match l with
  | [] => []
  | x :: l' => insert_by key x (order_by key l')
  end.

(** [ORDER BY key DESC] *)
Definition order_by_desc {X} (key : X → Z) (l : list X) : list X :=
  order_by (λ x, - key x) l.

(** [db.query(StockData).filter(..)...all()] and friends: one statement. *)
Definition query {X} (env : Env) (table : Store → X) : db X :=
  point env ;; do t <- get_txn; ret (table t).

(** [db.query(StockData).filter(P).delete()] *)
Definition delete_stock_data (env : Env) (P : StockData.t → Prop)
    `{∀ r, Decision (P r)} : db unit :=
  point env ;;
  do t <- get_txn;
  set_txn (mkStore (filter (λ r, ¬ P r) (stock_data t)) (company_info t) (user_watchlist t)).

(** [db.execute(update(CompanyInfo).where(CompanyInfo.symbol == symbol).values(..))] *)
Definition update_company_info (env : Env) (symbol : string) (row : CompanyInfo.t) : db unit :=
  point env ;;
  do t <- get_txn;
  set_txn (mkStore (stock_data t) (alter (λ _, row) symbol (company_info t)) (user_watchlist t)).

Definition deactivate (r : UserWatchlist.t) : UserWatchlist.t :=
  UserWatchlist.mk (UserWatchlist.symbol r) (UserWatchlist.added_at r) false.

(** [db.execute(update(UserWatchlist).where(UserWatchlist.symbol == symbol)
    .values(is_active=False))] *)
Definition update_user_watchlist (env : Env) (symbol : string) : db unit :=
  point env ;;
  do t <- get_txn;
  set_txn (mkStore (stock_data t) (company_info t)
             ((λ r, if decide (UserWatchlist.symbol r = symbol) then deactivate r else r)
                <$> user_watchlist t)).

(** ** Database operations

    Every operation has the shape
    [db = get_db(); try: .. except Exception: .. finally: db.close()];
    the [try] block of operation [f] is [f_try]. *)

Definition new_stock_data (symbol : string) (row : Bar.t) : Obj :=
  NewStockData symbol (Bar.Date row) (Bar.Open row) (Bar.High row)
               (Bar.Low row) (Bar.Close row) (Bar.Volume row).

Definition save_stock_data_try (env : Env) (symbol : string) (historical_data : DataFrame)
    : db bool :=
  let cutoff_date := now env - timedelta 30 in
  delete_stock_data env
    (λ r, StockData.symbol r = symbol ∧ cutoff_date ≤ StockData.date r) ;;
  for_each historical_data (λ row,
    (* date.to_pydatetime(), float(row[..]), int(row['Volume']) *)
    point env ;;
    add (new_stock_data symbol row)) ;;
  commit env ;;
  ret true.

Definition save_stock_data (env : Env) (symbol : string) (historical_data : DataFrame)
    : prog Store bool :=
  with_session
    (try_finally
       (try_except (save_stock_data_try env symbol historical_data)
                   (λ e, rollback ;; ret false))
       close).

Definition company_values (company_data : InfoDict) (last_updated : datetime)
    : CompanyInfo.t :=
  CompanyInfo.mk
    (dict_get company_data "longName" (PyStr ""))
    (dict_get company_data "sector" (PyStr ""))
    (dict_get company_data "industry" (PyStr ""))
    (dict_get company_data "marketCap" PyNone)
    (dict_get company_data "trailingPE" PyNone)
    (dict_get company_data "dividendYield" PyNone)
    (dict_get company_data "fiftyTwoWeekHigh" PyNone)
    (dict_get company_data "fiftyTwoWeekLow" PyNone)
    (dict_get company_data "longBusinessSummary" (PyStr ""))
    last_updated.

Definition save_company_info_try (env : Env) (symbol : string) (company_data : InfoDict)
    : db bool :=
  do existing <- query env (λ t, company_info t !! symbol);
  match existing with
  | Some _ =>
      update_company_info env symbol (company_values company_data (utcnow env))
  | None =>
      add (NewCompanyInfo symbol
             (dict_get company_data "longName" (PyStr ""))
             (dict_get company_data "sector" (PyStr ""))
             (dict_get company_data "industry" (PyStr ""))
             (dict_get company_data "marketCap" PyNone)
             (dict_get company_data "trailingPE" PyNone)
             (dict_get company_data "dividendYield" PyNone)
             (dict_get company_data "fiftyTwoWeekHigh" PyNone)
             (dict_get company_data "fiftyTwoWeekLow" PyNone)
             (dict_get company_data "longBusinessSummary" (PyStr "")))
  end ;;
  commit env ;;
  ret true.

Definition save_company_info (env : Env) (symbol : string) (company_data : InfoDict)
    : prog Store bool :=
  with_session
    (try_finally
       (try_except (save_company_info_try env symbol company_data)
                   (λ e, rollback ;; ret false))
       close).

(** The [days] table of [get_cached_stock_data], with its default. *)
Definition period_days (period : string) : Z :=
  if decide (period = "1mo") then 30
  else if decide (period = "3mo") then 90
  else if decide (period = "6mo") then 180
  else if decide (period = "1y") then 365
  else if decide (period = "2y") then 730
  else 365.

Definition bar_of_record (r : StockData.t) : Bar.t :=
  Bar.mk (StockData.date r) (StockData.open_price r) (StockData.high_price r)
         (StockData.low_price r) (StockData.close_price r) (StockData.volume r).

Definition get_cached_stock_data_try (env : Env) (symbol period : string)
    : db (option DataFrame) :=
  let days := period_days period in
  let start_date := now env - timedelta days in
  do records <- query env (λ t,
    order_by StockData.date
      (filter (λ r, StockData.symbol r = symbol ∧ start_date ≤ StockData.date r)
              (stock_data t)));
  match records with
  | _ :: _ => ret (Some (bar_of_record <$> records))
  | [] => ret None
  end.

Definition get_cached_stock_data (env : Env) (symbol period : string)
    : prog Store (option DataFrame) :=
  with_session
    (try_finally
       (try_except (get_cached_stock_data_try env symbol period) (λ e, ret None))
       close).

Definition info_of_company (company : CompanyInfo.t) : InfoDict :=
  <["longName" := CompanyInfo.company_name company]>
  (<["sector" := CompanyInfo.sector company]>
  (<["industry" := CompanyInfo.industry company]>
  (<["marketCap" := CompanyInfo.market_cap company]>
  (<["trailingPE" := CompanyInfo.pe_ratio company]>
  (<["dividendYield" := CompanyInfo.dividend_yield company]>
  (<["fiftyTwoWeekHigh" := CompanyInfo.fifty_two_week_high company]>
  (<["fiftyTwoWeekLow" := CompanyInfo.fifty_two_week_low company]>
  (<["longBusinessSummary" := CompanyInfo.business_summary company]> ∅)))))))).

Definition get_company_info_from_db_try (env : Env) (symbol : string)
    : db (option InfoDict) :=
  do company <- query env (λ t, company_info t !! symbol);
  match company with
  | Some c => ret (Some (info_of_company c))
  | None => ret None
  end.

Definition get_company_info_from_db (env : Env) (symbol : string)
    : prog Store (option InfoDict) :=
  with_session
    (try_finally
       (try_except (get_company_info_from_db_try env symbol) (λ e, ret None))
       close).

(** The filter [UserWatchlist.symbol == symbol, UserWatchlist.is_active == True]. *)
Definition active_for (symbol : string) (r : UserWatchlist.t) : Prop :=
  UserWatchlist.symbol r = symbol ∧ UserWatchlist.is_active r = true.

Global Instance active_for_dec symbol r : Decision (active_for symbol r) :=
  and_dec (decide (UserWatchlist.symbol r = symbol))
          (decide (UserWatchlist.is_active r = true)).

Definition add_to_watchlist_try (env : Env) (symbol : string) : db bool :=
  do existing <- query env (λ t, head (filter (active_for symbol) (user_watchlist t)));
  match existing with
  | None =>
      add (NewUserWatchlist symbol) ;;
      commit env ;;
      ret true
  | Some _ => ret false
  end.

Definition add_to_watchlist (env : Env) (symbol : string) : prog Store bool :=
  with_session
    (try_finally
       (try_except (add_to_watchlist_try env symbol) (λ e, rollback ;; ret false))
       close).

Definition remove_from_watchlist_try (env : Env) (symbol : string) : db bool :=
  do item <- query env (λ t, head (filter (active_for symbol) (user_watchlist t)));
  match item with
  | Some _ =>
      update_user_watchlist env symbol ;;
      commit env ;;
      ret true
  | None => ret false
  end.

Definition remove_from_watchlist (env : Env) (symbol : string) : prog Store bool :=
  with_session
    (try_finally
       (try_except (remove_from_watchlist_try env symbol) (λ e, rollback ;; ret false))
       close).

Definition get_watchlist_try (env : Env) : db (list string) :=
  do watchlist <- query env (λ t,
    order_by_desc UserWatchlist.added_at
      (filter (λ r, UserWatchlist.is_active r = true) (user_watchlist t)));
  ret (UserWatchlist.symbol <$> watchlist).

Definition get_watchlist (env : Env) : prog Store (list string) :=
  with_session
    (try_finally (try_except (get_watchlist_try env) (λ e, ret [])) close).

(** [Base.metadata.create_all(bind=engine)] goes through the engine, not a
    session; the tables of the model always exist, so it changes nothing. *)
Definition create_all (env : Env) : prog Store unit :=
  λ st, match plan env 0%nat with
        | Some e => (Raised e, st)
        | None => (Returned (), st)
        end.

Definition init_database (env : Env) : prog Store bool :=
  try_except (create_all env ;; ret true) (λ e, ret false).

Definition get_popular_stocks_try (env : Env) : db (list string) :=
  let cutoff := now env - timedelta 7 in
  do popular <- query env (λ t,
    (* SELECT DISTINCT .. LIMIT 10; which ten is left open by SQL *)
    take 10 (remove_dups
               (StockData.symbol <$>
                  filter (λ r, cutoff ≤ StockData.created_at r) (stock_data t))));
  ret popular.

Definition get_popular_stocks (env : Env) : prog Store (list string) :=
  with_session
    (try_finally (try_except (get_popular_stocks_try env) (λ e, ret [])) close).

(** ** The fetch with fallback ([app.py])

    [st.cache_data(ttl=300)] memoizes results per argument triple; what is
    modelled is the body, which runs whenever the memo has no live entry. *)

(** [yf.Ticker(symbol)]: what [history(..)] and [info] answer. *)
Module Ticker.
Record t := mk {
  history : string → string → outcome DataFrame;
  info : outcome InfoDict
}.
End Ticker.

(** The provider, and the clock and fault plan met by each of the four
    store operations [fetch_data] calls. *)
Record World := mkWorld {
  yf_Ticker : string → Ticker.t;
  env_cached : Env;
  env_cached_info : Env;
  env_save_stock_data : Env;
  env_save_company_info : Env
}.

Record FetchResult := mkFetchResult {
  historical : option DataFrame;
  info : option InfoDict;
  success : bool;
  error : option string
}.

Definition call {S A} (o : outcome A) : prog S A := λ s, (o, s).

(** The [except] clause of [fetch_data].  [cached] and [cached_info] are
    [None] while the local is not yet bound. *)
Definition fetch_data_except (cached : option (option DataFrame))
    (cached_info : option (option InfoDict)) (e : exn) : prog Store FetchResult :=
  match cached with
  | None => raise (UnboundLocalError "cached")
  | Some None => ret (mkFetchResult None None false (Some (str e)))
  | Some (Some bars) =>
      match cached_info with
      | None => raise (UnboundLocalError "cached_info")
      | Some None => ret (mkFetchResult None None false (Some (str e)))
      | Some (Some snapshot) => ret (mkFetchResult (Some bars) (Some snapshot) true None)
      end
  end.

(** The part of the [try] block after the two cache reads. *)
Definition fetch_live (w : World) (symbol period interval : string)
    : prog Store FetchResult :=
  let ticker := yf_Ticker w symbol in
  do hist <- call (Ticker.history ticker period interval);
  do info <- call (Ticker.info ticker);
  match info !! "regularMarketPrice" with
  | None =>
      raise (ValueError ("Symbol '" ++ symbol ++ "' not found or no data available.")%string)
  | Some _ => ret ()
  end ;;
  match hist with
  | _ :: _ => save_stock_data (env_save_stock_data w) symbol hist ;; ret ()
  | [] => ret ()
  end ;;
  (if decide (size info = 0%nat) then ret ()
   else save_company_info (env_save_company_info w) symbol info ;; ret ()) ;;
  ret (mkFetchResult (Some hist) (Some info) true None).

Definition fetch_data (w : World) (symbol period interval : string)
    : prog Store FetchResult :=
  try_let (get_cached_stock_data (env_cached w) symbol period)
    (fetch_data_except None None) (λ cached,
  try_let (get_company_info_from_db (env_cached_info w) symbol)
    (fetch_data_except (Some cached) None) (λ cached_info,
  try_except (fetch_live w symbol period interval)
    (fetch_data_except (Some cached) (Some cached_info)))).

(** [needle in hay] on strings. *)
Fixpoint contains (needle hay : string) : bool :=
  String.prefix needle hay ||
  match hay with
  | EmptyString => false
  | String _ hay' => contains needle hay'
  end.

(** ** The rest of the page script ([app.py]) *)

(** [s.endswith(suffix)] *)
Fixpoint ends_with (suffix s : string) : bool :=
  bool_decide (s = suffix) ||
  match s with
  | EmptyString => false
  | String _ s' => ends_with suffix s'
  end.

(** One probe of [search_symbol]:
    [try: info = yf.Ticker(sym).info; if 'regularMarketPrice' in info: return sym, info
     except Exception: pass]. *)
Definition probe (yf : string → Ticker.t) (sym : string) : option (string * InfoDict) :=
  match Ticker.info (yf sym) with
  | Returned info =>
      match info !! "regularMarketPrice" with
      | Some _ => Some (sym, info)
      | None => None
      end
  | Raised _ => None
  end.

(** The [common_us_stocks] dictionary, in its iteration order. *)
Definition common_us_stocks : list (string * string) :=
  [("APPLE", "AAPL"); ("MICROSOFT", "MSFT"); ("GOOGLE", "GOOG"); ("ALPHABET", "GOOG");
   ("TESLA", "TSLA"); ("AMAZON", "AMZN"); ("FACEBOOK", "META"); ("META", "META")].

(** [for x in xs: r = f x; if r: return r], [None] when the loop ends. *)
Fixpoint first_found {X R} (f : X → option R) (xs : list X) : option R :=
  match xs with
  | [] => None
  | x :: xs' =>
      match f x with
      | Some r => Some r
      | None => first_found f xs'
      end
  end.

Definition symbols_to_try (query : string) : list string :=
  query :: (if negb (ends_with ".NS" query) && negb (contains "." query)
            then [(query ++ ".NS")%string] else []).

(** [search_symbol(query)]; [(None, None)] is [None]. *)
Definition search_symbol (yf : string → Ticker.t) (query : string)
    : option (string * InfoDict) :=
  match first_found (probe yf) (symbols_to_try query) with
  | Some r => Some r
  | None =>
      first_found (λ entry, if contains query entry.1 then probe yf entry.2 else None)
                  common_us_stocks
  end.

(** [get_currency_symbol(info)]; [info] may be [None]. *)
Definition get_currency_symbol (info : option InfoDict) : string :=
  let currency :=
    match info with
    | Some d =>
        if decide (size d = 0%nat) then PyStr ""
        else dict_get d "financialCurrency" (PyStr "")
    | None => PyStr ""
    end in
  match currency with
  | PyStr c =>
      if decide (c = "INR") then "₹"
      else if decide (c = "USD") then "$"
      else if decide (c = "EUR") then "€"
      else "$"
  | _ => "$"
  end.

Definition IndexError : exn :=
  mkExn "IndexError" "single positional indexer is out-of-bounds".

(** [s.iloc[-k]] for [k >= 1]. *)
Definition iloc_from_end {X} (s : list X) (k : nat) : outcome X :=
  match reverse s !! (k - 1)%nat with
  | Some x => Returned x
  | None => Raised IndexError
  end.

(** The two prices the page reads for its first metric:
    [current = hist_data['Close'].iloc[-1]] and
    [prev = info.get('regularMarketPreviousClose', hist_data['Close'].iloc[-2])];
    the default of [get] is evaluated before [get] is called. *)
Definition page_prices (hist_data : DataFrame) (info : InfoDict)
    : outcome (float * pyvalue) :=
  match iloc_from_end (Bar.Close <$> hist_data) 1 with
  | Raised e => Raised e
  | Returned current =>
      match iloc_from_end (Bar.Close <$> hist_data) 2 with
      | Raised e => Raised e
      | Returned before =>
          Returned (current, dict_get info "regularMarketPreviousClose" (PyFloat before))
      end
  end.

(** ** Notions used in the statements *)

(** The first fault among the [n] points from point [k] on. *)
Fixpoint first_fault_from (p : fault_plan) (k n : nat) : option exn :=
  match n with
  | O => None
  | S n' =>
      match p k with
      | Some e => Some e
      | None => first_fault_from p (S k) n'
      end
  end.

Definition first_fault (p : fault_plan) (n : nat) : option exn :=
  first_fault_from p 0 n.

(** The row stored for one bar of a data frame. *)
Definition stock_record (env : Env) (symbol : string) (row : Bar.t) : StockData.t :=
  StockData.mk symbol (Bar.Date row) (Bar.Open row) (Bar.High row) (Bar.Low row)
               (Bar.Close row) (Bar.Volume row) (utcnow env).

(** The bars of [symbol] dated at or after [cutoff]: what a refresh purges. *)
Definition in_window (symbol : string) (cutoff : datetime) (r : StockData.t) : Prop :=
  StockData.symbol r = symbol ∧ cutoff ≤ StockData.date r.

Global Instance in_window_dec symbol cutoff r : Decision (in_window symbol cutoff r) :=
  and_dec (decide (StockData.symbol r = symbol)) (decide (cutoff ≤ StockData.date r)).

(** The bars of [symbol] dated strictly before [cutoff]. *)
Definition before_window (symbol : string) (cutoff : datetime) (r : StockData.t) : Prop :=
  StockData.symbol r = symbol ∧ StockData.date r < cutoff.

Global Instance before_window_dec symbol cutoff r : Decision (before_window symbol cutoff r) :=
  and_dec (decide (StockData.symbol r = symbol)) (decide (StockData.date r < cutoff)).

(** The store a refresh of [symbol] with [bars] commits. *)
Definition refreshed (env : Env) (symbol : string) (bars : DataFrame) (st : Store) : Store :=
  mkStore
    (filter (λ r, ¬ in_window symbol (now env - timedelta 30) r) (stock_data st)
       ++ (stock_record env symbol <$> bars))
    (company_info st) (user_watchlist st).

(** The initial session of an operation on store [st]. *)
Definition session_on (st : Store) : Session := mkSession st st [] 0.

(** Session code that leaves the committed store alone. *)
Definition frame {A} (m : db A) : Prop :=
  ∀ s, committed (m s).2 = committed s.

(** Session code that has committed nothing when it raises. *)
Definition raise_safe {A} (m : db A) : Prop :=
  ∀ s e s', m s = (Raised e, s') → committed s' = committed s.

(** Operation [op], whose [try] block is [try_block], never raises, and
    when its [try] block raises it returns [default] and leaves the store as
    it was. *)
Definition safe_default {A} (op : prog Store A) (try_block : db A) (default : A) : Prop :=
  ∀ st, returns (op st).1
        ∧ ∀ e s', try_block (session_on st) = (Raised e, s') →
                  op st = (Returned default, st).

(** The active rows of [symbol] in the watchlist table. *)
Definition active_rows (symbol : string) (st : Store) : list UserWatchlist.t :=
  filter (active_for symbol) (user_watchlist st).

(** At most one active row per symbol. *)
Definition single_active (st : Store) : Prop :=
  ∀ symbol, (length (active_rows symbol st) ≤ 1)%nat.

(** The stores the operations can build from a fresh database. *)
Inductive reachable : Store → Prop :=
| reachable_init : reachable empty_store
| reachable_save_stock_data env symbol bars st :
    reachable st → reachable (snd (save_stock_data env symbol bars st))
| reachable_save_company_info env symbol company_data st :
    reachable st → reachable (snd (save_company_info env symbol company_data st))
| reachable_add_to_watchlist env symbol st :
    reachable st → reachable (snd (add_to_watchlist env symbol st))
| reachable_remove_from_watchlist env symbol st :
    reachable st → reachable (snd (remove_from_watchlist env symbol st)).

(** The clock readings of the watchlist rows grow along the table and stay
    below [t]: the rows were added one after the other, before time [t]. *)
Definition chronological (t : datetime) (st : Store) : Prop :=
  StronglySorted (λ a b, UserWatchlist.added_at a < UserWatchlist.added_at b)
                 (user_watchlist st)
  ∧ Forall (λ r, UserWatchlist.added_at r < t) (user_watchlist st).

(** Watchlist calls made by the page, each at its clock reading. *)
Inductive wl_op :=
| Add (symbol : string)
| Remove (symbol : string).

Definition clock_env (t : datetime) : Env := mkEnv t t no_faults.

Definition run_op (st : Store) (c : datetime * wl_op) : Store :=
  match c with
  | (t, Add symbol) => snd (add_to_watchlist (clock_env t) symbol st)
  | (t, Remove symbol) => snd (remove_from_watchlist (clock_env t) symbol st)
  end.

Definition run_ops (st : Store) (calls : list (datetime * wl_op)) : Store :=
  foldl run_op st calls.

(** The clock readings of [calls] grow strictly, starting from [t]. *)
Fixpoint clock_grows (t : datetime) (calls : list (datetime * wl_op)) : Prop :=
  match calls with
  | [] => True
  | (t', _) :: calls' => t ≤ t' ∧ clock_grows (t' + 1) calls'
  end.

(** The watchlist state machine in the words of the specification: a symbol
    is Active or Inactive; [add] moves an Inactive symbol to Active and is a
    no-op on an Active one; [remove] moves an Active symbol to Inactive and
    is a no-op on an Inactive one; the listing has the Active symbols, the
    one that became Active last first.  The state is that listing. *)
Module Spec.
Definition add (symbol : string) (active : list string) : list string :=
  if decide (symbol ∈ active) then active else symbol :: active.

Definition remove (symbol : string) (active : list string) : list string :=
  filter (λ s, s ≠ symbol) active.

Definition step (active : list string) (c : datetime * wl_op) : list string :=
  match c with
  | (_, Add symbol) => add symbol active
  | (_, Remove symbol) => remove symbol active
  end.

Definition run (active : list string) (calls : list (datetime * wl_op)) : list string :=
  foldl step active calls.
End Spec.

(** The listing a store stands for when its rows are chronological. *)
Definition listing (st : Store) : list string :=
  UserWatchlist.symbol <$>
    reverse (filter (λ r, UserWatchlist.is_active r = true) (user_watchlist st)).

(** The store after [add_to_watchlist] inserted a row. *)
Definition with_entry (env : Env) (symbol : string) (st : Store) : Store :=
  mkStore (stock_data st) (company_info st)
          (user_watchlist st ++ [UserWatchlist.mk symbol (utcnow env) true]).

(** The store after [remove_from_watchlist] updated the rows of [symbol]. *)
Definition without_entry (symbol : string) (st : Store) : Store :=
  mkStore (stock_data st) (company_info st)
          ((λ r, if decide (UserWatchlist.symbol r = symbol) then deactivate r else r)
             <$> user_watchlist st).

(** The store after [save_company_info] wrote the snapshot of [symbol]. *)
Definition with_company (env : Env) (symbol : string) (company_data : InfoDict)
    (st : Store) : Store :=
  mkStore (stock_data st)
          (<[symbol := company_values company_data (utcnow env)]> (company_info st))
          (user_watchlist st).

(** ** Sample data *)

Definition day : Z := 86400000000.

(** A clock reading [n] days in, with no fault. *)
Definition sample_env (n : Z) : Env := mkEnv (n * day) (n * day) no_faults.

(** The same, with point [k] raising. *)
Definition faulty_env (n : Z) (k : nat) : Env :=
  mkEnv (n * day) (n * day)
        (λ i, if decide (i = k)
              then Some (ValueError "cannot convert float NaN to integer")
              else None).

Definition sample_bar (d v : Z) : Bar.t :=
  Bar.mk (d * day) 1.5%float 2%float 1%float 1.75%float v.

Definition sample_bars1 : DataFrame := [sample_bar 50 1; sample_bar 80 2; sample_bar 99 3].
Definition sample_bars2 : DataFrame := [sample_bar 50 10; sample_bar 80 20; sample_bar 99 30].

(** The store after the bars of day 100 were saved. *)
Definition sample_store : Store :=
  mkStore (stock_record (sample_env 100) "AAPL" <$> sample_bars1) ∅ [].

(** A watchlist with two entries. *)
Definition sample_watchlist : Store :=
  mkStore [] ∅ [UserWatchlist.mk "AAPL" (1 * day) true;
                UserWatchlist.mk "TSLA" (2 * day) true].

Definition sample_calls : list (datetime * wl_op) :=
  [(1, Add "AAPL"); (2, Add "TSLA"); (3, Remove "AAPL")].

(** A snapshot, and a store that caches both bars and snapshot of AAPL. *)
Definition sample_company : CompanyInfo.t :=
  CompanyInfo.mk (PyStr "Apple Inc.") (PyStr "Technology") (PyStr "Consumer Electronics")
                 (PyFloat 3000000000000%float) (PyFloat 28.5%float) PyNone
                 (PyFloat 199.5%float) (PyFloat 124.25%float) (PyStr "") (100 * day).

Definition cached_store : Store :=
  mkStore (stock_record (sample_env 100) "AAPL" <$> sample_bars1)
          {["AAPL" := sample_company]} [].

(** A provider that cannot be reached, and its answer for an unknown symbol. *)
Definition offline : Ticker.t :=
  Ticker.mk (λ _ _, Raised (mkExn "ConnectionError" "provider unreachable"))
            (Raised (mkExn "ConnectionError" "provider unreachable")).

Definition unknown_symbol : Ticker.t :=
  Ticker.mk (λ _ _, Returned []) (Returned ∅).

Definition sample_world (ticker : Ticker.t) : World :=
  mkWorld (λ _, ticker) (sample_env 101) (sample_env 101) (sample_env 101) (sample_env 101).

(** The keys of the dictionary [get_company_info_from_db] builds. *)
Definition snapshot_keys : list string :=
  ["longName"; "sector"; "industry"; "marketCap"; "trailingPE"; "dividendYield";
   "fiftyTwoWeekHigh"; "fiftyTwoWeekLow"; "longBusinessSummary"].


(** What identifies a watchlist row apart from its state. *)
Definition row_key (r : UserWatchlist.t) : string * datetime :=
  (UserWatchlist.symbol r, UserWatchlist.added_at r).

(** Metadata as the provider answers it, and a provider that knows AAPL only. *)
Definition sample_meta : InfoDict :=
  {["regularMarketPrice" := PyFloat 1.75%float;
    "financialCurrency" := PyStr "INR";
    "longName" := PyStr "Apple Inc."]}.

Definition knows_AAPL (sym : string) : Ticker.t :=
  if decide (sym = "AAPL")
  then Ticker.mk (λ _ _, Returned sample_bars2) (Returned sample_meta)
  else unknown_symbol.

(** A provider that has a price for every symbol and one bar of history. *)
Definition one_bar : Ticker.t :=
  Ticker.mk (λ _ _, Returned [sample_bar 99 3]) (Returned sample_meta).

Definition live_world : World :=
  mkWorld knows_AAPL (sample_env 101) (sample_env 101) (sample_env 101) (sample_env 101).

(** The store a fetch leaves when the provider answered [hist] and [info]. *)
Definition live_store (w : World) (symbol : string) (hist : DataFrame) (info : InfoDict)
    (st : Store) : Store :=
  snd (save_company_info (env_save_company_info w) symbol info
         match hist with
         | [] => st
         | _ :: _ => snd (save_stock_data (env_save_stock_data w) symbol hist st)
         end).

(** * Properties *)

(** ** Running the session code *)

Lemma first_fault_from_app p k a b :
  first_fault_from p k (a + b) =
  match first_fault_from p k a with
  | Some e => Some e
  | None => first_fault_from p (k + a) b
  end.
Proof.
  revert k. induction a as [|a IH]; intros k; simpl.
  - by rewrite Nat.add_0_r.
  - destruct (p k); [done|]. rewrite IH. by rewrite Nat.add_succ_r.
Qed.

Lemma flush_stock_data env symbol bars t :
  flush env t (new_stock_data symbol <$> bars) =
  mkStore (stock_data t ++ (stock_record env symbol <$> bars))
          (company_info t) (user_watchlist t).
Proof.
  unfold flush. revert t. induction bars as [|b bars IH]; intros t; simpl.
  - rewrite app_nil_r. by destruct t.
  - rewrite IH. simpl. by rewrite <- app_assoc.
Qed.

Lemma bind_run {S A B} (m : prog S A) (k : A → prog S B) s :
  bind m k s =
  match m s with
  | (Returned a, s') => k a s'
  | (Raised e, s') => (Raised e, s')
  end.
Proof. reflexivity. Qed.

Lemma point_run env s :
  point env s =
  (match plan env (points s) with Some e => Raised e | None => Returned () end,
   mkSession (committed s) (txn s) (new s) (S (points s))).
Proof. unfold point. by destruct (plan env (points s)). Qed.

Lemma for_each_add_run env symbol bars s :
  match first_fault_from (plan env) (points s) (length bars) with
  | None =>
      for_each bars (λ row, point env ;; add (new_stock_data symbol row)) s =
      (Returned (), mkSession (committed s) (txn s)
                      (new s ++ (new_stock_data symbol <$> bars))
                      (points s + length bars))
  | Some e =>
      ∃ s', for_each bars (λ row, point env ;; add (new_stock_data symbol row)) s
            = (Raised e, s') ∧ committed s' = committed s
  end.
Proof.
  revert s. induction bars as [|b bars IH]; intros s; simpl.
  - rewrite app_nil_r, Nat.add_0_r. by destruct s.
  - rewrite !bind_run, point_run.
    destruct (plan env (points s)) as [e|] eqn:Hp.
    + eexists. split; [reflexivity|done].
    + unfold add at 1. simpl.
      match goal with |- context [for_each bars ?f ?s1] => specialize (IH s1) end.
      simpl in IH.
      destruct (first_fault_from (plan env) (S (points s)) (length bars)) as [e|].
      * exact IH.
      * rewrite IH. f_equal. f_equal; [by rewrite <- app_assoc | lia].
Qed.

Lemma save_stock_data_try_run env symbol bars st :
  match first_fault (plan env) (length bars + 2) with
  | None =>
      ∃ s', save_stock_data_try env symbol bars (session_on st) = (Returned true, s')
            ∧ committed s' = refreshed env symbol bars st
  | Some e =>
      ∃ s', save_stock_data_try env symbol bars (session_on st) = (Raised e, s')
            ∧ committed s' = st
  end.
Proof.
  unfold first_fault.
  replace (length bars + 2)%nat with (1 + (length bars + 1))%nat by lia.
  rewrite first_fault_from_app. simpl first_fault_from at 1.
  unfold save_stock_data_try, delete_stock_data.
  rewrite !bind_run, point_run. simpl.
  destruct (plan env 0%nat) as [e|] eqn:H0.
  { eexists; split; [reflexivity|done]. }
  simpl. rewrite first_fault_from_app.
  match goal with |- context [bind (for_each bars _) _ ?s1] =>
    pose proof (for_each_add_run env symbol bars s1) as Hloop end.
  simpl in Hloop.
  destruct (first_fault_from (plan env) 1 (length bars)) as [e|].
  { destruct Hloop as (s' & Hloop & Hc).
    eexists. rewrite bind_run, Hloop. split; [reflexivity|done]. }
  simpl.
  destruct (plan env (S (length bars))) as [e|] eqn:Hn;
    eexists; rewrite bind_run, Hloop; unfold commit;
    rewrite !bind_run, point_run; simpl; rewrite Hn; (split; [reflexivity|]); simpl.
  - done.
  - by rewrite flush_stock_data.
Qed.

Lemma save_stock_data_run env symbol bars st :
  save_stock_data env symbol bars st =
  match first_fault (plan env) (length bars + 2) with
  | None => (Returned true, refreshed env symbol bars st)
  | Some _ => (Returned false, st)
  end.
Proof.
  pose proof (save_stock_data_try_run env symbol bars st) as H.
  unfold save_stock_data, with_session, try_finally, try_except.
  fold (session_on st).
  destruct (first_fault (plan env) (length bars + 2)) as [e|];
    destruct H as (s' & -> & Hc); simpl; by rewrite Hc.
Qed.

Lemma alter_const_insert {V} (m : gmap string V) k x y :
  m !! k = Some x → alter (λ _, y) k m = <[k := y]> m.
Proof.
  intros Hk. apply map_eq. intros j. destruct (decide (k = j)) as [->|Hne].
  - by rewrite lookup_alter_eq, lookup_insert_eq, Hk.
  - by rewrite lookup_alter_ne, lookup_insert_ne.
Qed.

Ltac run_session :=
  unfold with_session, try_finally, try_except, query, commit, rollback, close,
    update_company_info, update_user_watchlist, get_txn, set_txn, add, ret;
  rewrite ?bind_run, ?point_run; simpl.

Lemma save_company_info_run env symbol company_data st :
  save_company_info env symbol company_data st =
  match first_fault (plan env)
          (match company_info st !! symbol with Some _ => 3 | None => 2 end) with
  | None => (Returned true, with_company env symbol company_data st)
  | Some _ => (Returned false, st)
  end.
Proof.
  unfold save_company_info, save_company_info_try, first_fault. run_session.
  destruct (plan env 0%nat) eqn:H0;
    destruct (company_info st !! symbol) as [c|] eqn:Hc;
    simpl; rewrite ?H0, ?Hc; simpl; try done.
  - run_session. destruct (plan env 1%nat); simpl; [done|].
    run_session. destruct (plan env 2%nat); simpl; [done|].
    unfold with_company. by erewrite alter_const_insert.
  - run_session. by destruct (plan env 1%nat).
Qed.

Lemma get_cached_stock_data_run env symbol period st :
  get_cached_stock_data env symbol period st =
  (Returned
     match plan env 0%nat with
     | Some _ => None
     | None =>
         match order_by StockData.date
                 (filter (in_window symbol (now env - timedelta (period_days period)))
                         (stock_data st)) with
         | [] => None
         | records => Some (bar_of_record <$> records)
         end
     end, st).
Proof.
  unfold get_cached_stock_data, get_cached_stock_data_try. run_session.
  destruct (plan env 0%nat); simpl; [done|].
  match goal with |- context [order_by ?k ?l] =>
    change (order_by k l) with
      (order_by StockData.date
         (filter (in_window symbol (now env - timedelta (period_days period)))
                 (stock_data st)))
  end.
  by destruct (order_by _ _).
Qed.

Lemma get_company_info_from_db_run env symbol st :
  get_company_info_from_db env symbol st =
  (Returned
     match plan env 0%nat with
     | Some _ => None
     | None => info_of_company <$> company_info st !! symbol
     end, st).
Proof.
  unfold get_company_info_from_db, get_company_info_from_db_try. run_session.
  destruct (plan env 0%nat); simpl; [done|].
  by destruct (company_info st !! symbol).
Qed.

Lemma add_to_watchlist_run env symbol st :
  add_to_watchlist env symbol st =
  match plan env 0%nat, active_rows symbol st, plan env 1%nat with
  | None, [], None => (Returned true, with_entry env symbol st)
  | _, _, _ => (Returned false, st)
  end.
Proof.
  unfold add_to_watchlist, add_to_watchlist_try, active_rows. run_session.
  destruct (plan env 0%nat); simpl; [done|].
  destruct (filter _ _) as [|r rows]; simpl; [|done].
  run_session. by destruct (plan env 1%nat).
Qed.

Lemma remove_from_watchlist_run env symbol st :
  remove_from_watchlist env symbol st =
  match plan env 0%nat, active_rows symbol st, plan env 1%nat, plan env 2%nat with
  | None, _ :: _, None, None => (Returned true, without_entry symbol st)
  | _, _, _, _ => (Returned false, st)
  end.
Proof.
  unfold remove_from_watchlist, remove_from_watchlist_try, active_rows. run_session.
  destruct (plan env 0%nat); simpl; [done|].
  destruct (filter _ _) as [|r rows]; simpl; [done|].
  run_session. destruct (plan env 1%nat); simpl; [done|].
  run_session. by destruct (plan env 2%nat).
Qed.

Lemma get_watchlist_run env st :
  get_watchlist env st =
  (Returned
     match plan env 0%nat with
     | Some _ => []
     | None =>
         UserWatchlist.symbol <$>
           order_by_desc UserWatchlist.added_at
             (filter (λ r, UserWatchlist.is_active r = true) (user_watchlist st))
     end, st).
Proof.
  unfold get_watchlist, get_watchlist_try. run_session.
  by destruct (plan env 0%nat).
Qed.

(** ** Lists *)

Lemma filter_fmap {X Y} (f : X → Y) (P : Y → Prop) `{!∀ y, Decision (P y)} (l : list X) :
  filter P (f <$> l) = f <$> filter (λ x, P (f x)) l.
Proof.
  induction l as [|x l IH]; [done|].
  rewrite fmap_cons, !filter_cons, IH. by case_decide.
Qed.

Lemma filter_filter_disjoint {X} (P Q : X → Prop)
    `{!∀ x, Decision (P x), !∀ x, Decision (Q x)} (l : list X) :
  (∀ x, P x → Q x → False) → filter P (filter Q l) = [].
Proof.
  intros HPQ. induction l as [|x l IH]; [done|].
  rewrite (filter_cons Q). case_decide; [|done].
  rewrite filter_cons_False; [done|]. intros HP. by eapply HPQ.
Qed.

(** ** The refresh of the price bars *)

Lemma refreshed_in_window env symbol bars st :
  filter (in_window symbol (now env - timedelta 30))
         (stock_data (refreshed env symbol bars st)) =
  stock_record env symbol <$> filter (λ b, now env - timedelta 30 ≤ Bar.Date b) bars.
Proof.
  unfold refreshed. simpl. rewrite filter_app.
  rewrite filter_filter_disjoint by (intros x H1 H2; by apply H2).
  rewrite filter_fmap. simpl. f_equal.
  apply list_filter_iff. intros b. unfold in_window. simpl.
  split; [by intros [_ ?] | by split].
Qed.

Lemma refreshed_before_window env symbol bars st :
  filter (before_window symbol (now env - timedelta 30))
         (stock_data (refreshed env symbol bars st)) =
  (filter (before_window symbol (now env - timedelta 30)) (stock_data st)
     ++ (stock_record env symbol <$> filter (λ b, Bar.Date b < now env - timedelta 30) bars)).
Proof.
  unfold refreshed. simpl. rewrite filter_app. f_equal.
  - apply list_filter_filter_l. unfold before_window, in_window. intros r [_ Hlt] [_ Hle]. lia.
  - rewrite filter_fmap. f_equal.
    apply list_filter_iff. intros b. unfold before_window. simpl.
    split; [by intros [_ ?] | by split].
Qed.

Lemma refreshed_on_date env symbol bars st d :
  d < now env - timedelta 30 →
  filter (λ r, StockData.symbol r = symbol ∧ StockData.date r = d)
         (stock_data (refreshed env symbol bars st)) =
  (filter (λ r, StockData.symbol r = symbol ∧ StockData.date r = d) (stock_data st)
     ++ (stock_record env symbol <$> filter (λ b, Bar.Date b = d) bars)).
Proof.
  intros Hd. unfold refreshed. simpl. rewrite filter_app. f_equal.
  - apply list_filter_filter_l. unfold in_window. intros r [_ Heq] [_ Hle]. lia.
  - rewrite filter_fmap. f_equal.
    apply list_filter_iff. intros b. simpl.
    split; [by intros [_ ?] | by split].
Qed.

(** C3: [save_stock_data] (upsertPriceBars) on symbol [S] first deletes every
    stored bar of [S] dated at or after [now - 30 days], then inserts every
    provided bar, and returns [True]; when any statement or conversion on the
    way raises, nothing is changed and it returns [False].  Hence after two
    calls the bars of [S] dated at or after the cutoff of the second call are
    exactly those of the second data frame. *)
Theorem save_stock_data_refreshes env symbol bars st :
  let cutoff := now env - timedelta 30 in
  (first_fault (plan env) (length bars + 2) = None →
   save_stock_data env symbol bars st =
     (Returned true,
      mkStore (filter (λ r, ¬ in_window symbol cutoff r) (stock_data st)
                 ++ (stock_record env symbol <$> bars))
              (company_info st) (user_watchlist st)))
  ∧ (∀ e, first_fault (plan env) (length bars + 2) = Some e →
          save_stock_data env symbol bars st = (Returned false, st))
  ∧ (∀ env0 bars0,
       first_fault (plan env) (length bars + 2) = None →
       filter (in_window symbol cutoff)
         (stock_data (snd (save_stock_data env symbol bars
                             (snd (save_stock_data env0 symbol bars0 st))))) =
       stock_record env symbol <$> filter (λ b, cutoff ≤ Bar.Date b) bars).
Proof.
  intros cutoff. split; [|split].
  - intros Hok. by rewrite save_stock_data_run, Hok.
  - intros e He. by rewrite save_stock_data_run, He.
  - intros env0 bars0 Hok.
    rewrite (save_stock_data_run env), Hok. simpl.
    apply refreshed_in_window.
Qed.

(** C10: [save_stock_data] never deletes or changes a stored bar of [S] dated
    strictly before [now - 30 days]; the provided bars dated before that
    cutoff are inserted next to the rows already there, so on such a date the
    number of rows of [S] grows by the number of provided bars of that
    date. *)
Theorem save_stock_data_keeps_older_bars env symbol bars st :
  let cutoff := now env - timedelta 30 in
  let st' := snd (save_stock_data env symbol bars st) in
  (∃ added,
     filter (before_window symbol cutoff) (stock_data st') =
     (filter (before_window symbol cutoff) (stock_data st) ++ added))
  ∧ (first_fault (plan env) (length bars + 2) = None →
     filter (before_window symbol cutoff) (stock_data st') =
     (filter (before_window symbol cutoff) (stock_data st)
        ++ (stock_record env symbol <$> filter (λ b, Bar.Date b < cutoff) bars)))
  ∧ (first_fault (plan env) (length bars + 2) = None →
     ∀ d, d < cutoff →
       length (filter (λ r, StockData.symbol r = symbol ∧ StockData.date r = d)
                      (stock_data st')) =
       (length (filter (λ r, StockData.symbol r = symbol ∧ StockData.date r = d)
                       (stock_data st))
        + length (filter (λ b, Bar.Date b = d) bars))%nat).
Proof.
  intros cutoff st'. subst st'. rewrite save_stock_data_run.
  split; [|split].
  - destruct (first_fault _ _); simpl.
    + exists []. by rewrite app_nil_r.
    + eexists. apply refreshed_before_window.
  - intros ->. apply refreshed_before_window.
  - intros -> d Hd. cbn [snd]. rewrite refreshed_on_date by done.
    by rewrite length_app, length_fmap.
Qed.

Lemma save_stock_data_refreshes_witness :
  save_stock_data (sample_env 101) "AAPL" sample_bars2 sample_store =
    (Returned true,
     mkStore (stock_record (sample_env 100) "AAPL" (sample_bar 50 1)
                :: (stock_record (sample_env 101) "AAPL" <$> sample_bars2))
             ∅ [])
  ∧ save_stock_data (faulty_env 101 2) "AAPL" sample_bars2 sample_store =
      (Returned false, sample_store)
  ∧ filter (in_window "AAPL" (now (sample_env 101) - timedelta 30))
      (stock_data (snd (save_stock_data (sample_env 101) "AAPL" sample_bars2
                          (snd (save_stock_data (sample_env 100) "AAPL" sample_bars1
                                                empty_store))))) =
    stock_record (sample_env 101) "AAPL" <$> [sample_bar 80 20; sample_bar 99 30].
Proof.
  split; [|split].
  - apply (save_stock_data_refreshes (sample_env 101) "AAPL" sample_bars2 sample_store).
    reflexivity.
  - apply (save_stock_data_refreshes (faulty_env 101 2) "AAPL" sample_bars2 sample_store)
      with (e := ValueError "cannot convert float NaN to integer").
    reflexivity.
  - apply (save_stock_data_refreshes (sample_env 101) "AAPL" sample_bars2 empty_store).
    reflexivity.
Defined.

Lemma save_stock_data_keeps_older_bars_witness :
  filter (before_window "AAPL" (now (sample_env 101) - timedelta 30))
         (stock_data (snd (save_stock_data (sample_env 101) "AAPL" sample_bars2
                                           sample_store))) =
    [stock_record (sample_env 100) "AAPL" (sample_bar 50 1);
     stock_record (sample_env 101) "AAPL" (sample_bar 50 10)]
  ∧ length (filter (λ r, StockData.symbol r = "AAPL" ∧ StockData.date r = 50 * day)
              (stock_data (snd (save_stock_data (sample_env 101) "AAPL" sample_bars2
                                                sample_store)))) = 2%nat.
Proof.
  destruct (save_stock_data_keeps_older_bars (sample_env 101) "AAPL" sample_bars2
              sample_store) as (_ & Hold & Hdup).
  split.
  - apply Hold. reflexivity.
  - apply (Hdup eq_refl (50 * day)). reflexivity.
Defined.

(** ** Ordering *)

Section order_by.
Context {X : Type} (key : X → Z).

Lemma insert_by_perm x l : insert_by key x l ≡ₚ x :: l.
Proof.
  induction l as [|y l IH]; simpl; [done|].
  case_decide; [done|]. rewrite IH. apply Permutation_swap.
Qed.

Lemma order_by_perm l : order_by key l ≡ₚ l.
Proof.
  induction l as [|x l IH]; simpl; [done|].
  by rewrite insert_by_perm, IH.
Qed.

Lemma insert_by_hd x y l :
  key y ≤ key x →
  HdRel (λ a b, key a ≤ key b) y l →
  HdRel (λ a b, key a ≤ key b) y (insert_by key x l).
Proof.
  intros Hyx Hhd. destruct l as [|z l]; simpl.
  - by constructor.
  - case_decide; constructor; [done|]. by inversion Hhd.
Qed.

Lemma insert_by_sorted x l :
  Sorted (λ a b, key a ≤ key b) l → Sorted (λ a b, key a ≤ key b) (insert_by key x l).
Proof.
  induction 1 as [|y l Hs IH Hhd]; simpl.
  - by repeat constructor.
  - case_decide as Hlt.
    + constructor; [by constructor|]. constructor. lia.
    + constructor; [done|]. apply insert_by_hd; [lia|done].
Qed.

Lemma order_by_sorted l : Sorted (λ a b, key a ≤ key b) (order_by key l).
Proof.
  induction l as [|x l IH]; simpl; [constructor|]. by apply insert_by_sorted.
Qed.

Lemma insert_by_last x l :
  Forall (λ y, key y ≤ key x) l → insert_by key x l = l ++ [x].
Proof.
  induction 1 as [|y l Hy Hl IH]; simpl; [done|].
  rewrite decide_False by lia. by rewrite IH.
Qed.
End order_by.

Lemma order_by_desc_ascending {X} (key : X → Z) (l : list X) :
  StronglySorted (λ a b, key a < key b) l → order_by_desc key l = reverse l.
Proof.
  unfold order_by_desc. induction 1 as [|x l Hs IH Hx]; simpl; [done|].
  rewrite IH, reverse_cons. apply insert_by_last.
  apply Forall_forall. intros y Hy. rewrite elem_of_reverse in Hy.
  rewrite Forall_forall in Hx. specialize (Hx y Hy). simpl in Hx. lia.
Qed.

Lemma period_days_default period :
  period ∉ ["1mo"; "3mo"; "6mo"; "1y"; "2y"] → period_days period = 365.
Proof.
  intros Hp. unfold period_days.
  repeat (case_decide; [subst; exfalso; apply Hp; set_solver|]). done.
Qed.

(** C4: [get_cached_stock_data] (getCachedPriceBars) on [S] and period [p]
    returns exactly the stored bars of [S] dated at or after
    [now - window(p)], ordered by date ascending, where [window] is
    1mo: 30, 3mo: 90, 6mo: 180, 1y: 365, 2y: 730 days and 365 days for any
    other period; it returns [None] when there is no such bar; and it never
    returns a bar older than the window. *)
Theorem get_cached_stock_data_window env symbol period st :
  let start_date := now env - timedelta (period_days period) in
  let stored := filter (in_window symbol start_date) (stock_data st) in
  (period_days "1mo" = 30 ∧ period_days "3mo" = 90 ∧ period_days "6mo" = 180
   ∧ period_days "1y" = 365 ∧ period_days "2y" = 730
   ∧ (period ∉ ["1mo"; "3mo"; "6mo"; "1y"; "2y"] → period_days period = 365))
  ∧ snd (get_cached_stock_data env symbol period st) = st
  ∧ (plan env 0%nat = None → stored = [] →
     fst (get_cached_stock_data env symbol period st) = Returned None)
  ∧ (plan env 0%nat = None → stored ≠ [] →
     ∃ df, fst (get_cached_stock_data env symbol period st) = Returned (Some df)
           ∧ df ≡ₚ bar_of_record <$> stored
           ∧ Sorted (λ a b, Bar.Date a ≤ Bar.Date b) df)
  ∧ (∀ df, fst (get_cached_stock_data env symbol period st) = Returned (Some df) →
           Forall (λ b, start_date ≤ Bar.Date b) df).
Proof.
  intros start_date stored. rewrite get_cached_stock_data_run. simpl.
  fold start_date. fold stored.
  pose proof (order_by_perm StockData.date stored) as Hperm.
  pose proof (order_by_sorted StockData.date stored) as Hsorted.
  split; [|split; [done|split; [|split]]].
  - repeat split; try reflexivity. apply period_days_default.
  - intros -> Hnil. by rewrite Hnil.
  - intros -> Hne.
    destruct (order_by StockData.date stored) as [|r records] eqn:Hrec.
    { apply Permutation_nil_l in Hperm. by destruct Hne. }
    eexists. split; [reflexivity|]. split.
    + by apply (fmap_Permutation bar_of_record) in Hperm.
    + by apply (Sorted_fmap bar_of_record _ (λ a b, Bar.Date a ≤ Bar.Date b)) in Hsorted.
  - intros df Hdf. destruct (plan env 0%nat); [done|].
    destruct (order_by StockData.date stored) as [|r records] eqn:Hrec; [done|].
    injection Hdf as <-.
    change (Forall (λ b, start_date ≤ Bar.Date b) (bar_of_record <$> (r :: records))).
    apply Forall_fmap. rewrite Hperm.
    apply Forall_forall. intros x Hx. unfold stored in Hx.
    apply list_elem_of_filter in Hx as [[_ Hx] _]. done.
Qed.

Lemma get_cached_stock_data_window_witness :
  fst (get_cached_stock_data (sample_env 101) "TSLA" "1mo" sample_store) = Returned None
  ∧ (∃ df, fst (get_cached_stock_data (sample_env 101) "AAPL" "1mo" sample_store)
           = Returned (Some df)
           ∧ df ≡ₚ [sample_bar 80 2; sample_bar 99 3]
           ∧ Sorted (λ a b, Bar.Date a ≤ Bar.Date b) df)
  ∧ Forall (λ b, 71 * day ≤ Bar.Date b) [sample_bar 80 2; sample_bar 99 3].
Proof.
  split; [|split].
  - apply (get_cached_stock_data_window (sample_env 101) "TSLA" "1mo" sample_store);
      reflexivity.
  - apply (get_cached_stock_data_window (sample_env 101) "AAPL" "1mo" sample_store);
      [reflexivity | discriminate].
  - apply (get_cached_stock_data_window (sample_env 101) "AAPL" "1mo" sample_store).
    reflexivity.
Defined.

(** ** The watchlist *)

Lemma active_rows_with_entry env symbol symbol' st :
  active_rows symbol' (with_entry env symbol st) =
  active_rows symbol' st
    ++ (if decide (symbol = symbol') then [UserWatchlist.mk symbol (utcnow env) true] else []).
Proof.
  unfold active_rows, with_entry. simpl. rewrite filter_app. f_equal.
  rewrite filter_cons, filter_nil. unfold active_for at 1. simpl.
  destruct (decide (symbol = symbol')) as [->|Hne].
  - by rewrite decide_True.
  - rewrite decide_False; [done|]. by intros [? _].
Qed.

Lemma active_rows_without_entry symbol symbol' st :
  active_rows symbol' (without_entry symbol st) =
  if decide (symbol' = symbol) then [] else active_rows symbol' st.
Proof.
  unfold active_rows, without_entry. simpl.
  induction (user_watchlist st) as [|r rows IH]; [by case_decide|].
  rewrite fmap_cons, !filter_cons, IH. clear IH.
  destruct (decide (UserWatchlist.symbol r = symbol)) as [Hr|Hr].
  - rewrite decide_False by (by intros [_ ?]).
    destruct (decide (symbol' = symbol)) as [->|Hne]; [done|].
    rewrite decide_False; [done|]. intros [? _]. congruence.
  - destruct (decide (symbol' = symbol)) as [->|Hne].
    + rewrite decide_False; [done|]. by intros [? _].
    + done.
Qed.

Lemma without_entry_deactivated symbol st r :
  r ∈ user_watchlist (without_entry symbol st) →
  UserWatchlist.symbol r = symbol → UserWatchlist.is_active r = false.
Proof.
  unfold without_entry. simpl. intros Hr Hs.
  apply list_elem_of_fmap in Hr as (r0 & -> & _).
  destruct (decide (UserWatchlist.symbol r0 = symbol)); [done|]. contradiction.
Qed.

Lemma without_entry_changes symbol st :
  active_rows symbol st ≠ [] → without_entry symbol st ≠ st.
Proof.
  intros Hact Heq. apply Hact.
  rewrite <- Heq, active_rows_without_entry. by rewrite decide_True.
Qed.

Lemma with_entry_changes env symbol st : with_entry env symbol st ≠ st.
Proof.
  intros Heq. apply (f_equal (λ s, length (user_watchlist s))) in Heq.
  unfold with_entry in Heq. simpl in Heq. rewrite length_app in Heq. simpl in Heq. lia.
Qed.

(** C5: when an active entry for [S] exists, [add_to_watchlist] changes
    nothing and returns [False]; otherwise it inserts exactly one new active
    entry and returns [True].  A second [add] right after is a no-op
    returning [False], and from a table with at most one active row of [S]
    the two calls leave exactly one. *)
Theorem add_to_watchlist_idempotent env symbol st :
  plan env 0%nat = None → plan env 1%nat = None →
  (active_rows symbol st ≠ [] →
   add_to_watchlist env symbol st = (Returned false, st))
  ∧ (active_rows symbol st = [] →
     add_to_watchlist env symbol st =
       (Returned true,
        mkStore (stock_data st) (company_info st)
                (user_watchlist st ++ [UserWatchlist.mk symbol (utcnow env) true])))
  ∧ (∀ env',
       add_to_watchlist env' symbol (snd (add_to_watchlist env symbol st)) =
       (Returned false, snd (add_to_watchlist env symbol st)))
  ∧ (∀ env', (length (active_rows symbol st) ≤ 1)%nat →
       length (active_rows symbol
                 (snd (add_to_watchlist env' symbol
                         (snd (add_to_watchlist env symbol st))))) = 1%nat).
Proof.
  intros H0 H1.
  assert (Hfirst : active_rows symbol (snd (add_to_watchlist env symbol st)) ≠ []).
  { rewrite add_to_watchlist_run, H0, H1.
    destruct (active_rows symbol st) as [|r rows] eqn:Hact; simpl.
    - rewrite active_rows_with_entry, Hact, decide_True by done. done.
    - by rewrite Hact. }
  assert (Hsecond : ∀ env',
    add_to_watchlist env' symbol (snd (add_to_watchlist env symbol st)) =
    (Returned false, snd (add_to_watchlist env symbol st))).
  { intros env'. rewrite (add_to_watchlist_run env').
    destruct (active_rows symbol (snd (add_to_watchlist env symbol st))); [done|].
    by destruct (plan env' 0%nat). }
  split; [|split; [|split]].
  - intros Hact. rewrite add_to_watchlist_run, H0.
    by destruct (active_rows symbol st).
  - intros Hact. by rewrite add_to_watchlist_run, H0, H1, Hact.
  - done.
  - intros env' Hle. rewrite Hsecond. simpl.
    rewrite add_to_watchlist_run, H0, H1.
    destruct (active_rows symbol st) as [|r rows] eqn:Hact; simpl.
    + rewrite active_rows_with_entry, Hact, decide_True by done. done.
    + rewrite Hact. simpl in *. lia.
Qed.

Lemma active_rows_never_added symbol st :
  (∀ r, r ∈ user_watchlist st → UserWatchlist.symbol r ≠ symbol) →
  active_rows symbol st = [].
Proof.
  intros Hnone. unfold active_rows.
  destruct (filter _ _) as [|r rows] eqn:Hf; [done|].
  assert (Hr : r ∈ filter (active_for symbol) (user_watchlist st))
    by (rewrite Hf; left).
  apply list_elem_of_filter in Hr as [[Hs _] Hin]. by destruct (Hnone r Hin).
Qed.

Lemma get_watchlist_members env st symbol :
  plan env 0%nat = None →
  ∃ l, get_watchlist env st = (Returned l, st)
       ∧ (symbol ∈ l ↔ active_rows symbol st ≠ []).
Proof.
  intros H0. rewrite get_watchlist_run, H0. eexists. split; [reflexivity|].
  rewrite list_elem_of_fmap. unfold order_by_desc. split.
  - intros (r & -> & Hr). rewrite order_by_perm in Hr.
    apply list_elem_of_filter in Hr as [Hact Hin].
    intros Hnil.
    assert (Hr : r ∈ active_rows (UserWatchlist.symbol r) st).
    { apply list_elem_of_filter. by repeat split. }
    rewrite Hnil in Hr. by apply not_elem_of_nil in Hr.
  - intros Hne. destruct (active_rows symbol st) as [|r rows] eqn:Hact; [done|].
    assert (Hr : r ∈ active_rows symbol st) by (rewrite Hact; left).
    apply list_elem_of_filter in Hr as [[Hs Ha] Hin].
    exists r. split; [done|]. rewrite order_by_perm.
    by apply list_elem_of_filter.
Qed.

(** C6: [remove_from_watchlist] marks every row of [S] inactive and returns
    [True] when [S] has an active entry; it changes nothing and returns
    [False] when [S] has none, in particular when [S] was never added; it
    returns [True] exactly when the table changed; and after [add(S)] then
    [remove(S)] the listing does not contain [S]. *)
Theorem remove_from_watchlist_deactivates env symbol st :
  first_fault (plan env) 3 = None →
  (active_rows symbol st ≠ [] →
   remove_from_watchlist env symbol st =
     (Returned true,
      mkStore (stock_data st) (company_info st)
              ((λ r, if decide (UserWatchlist.symbol r = symbol) then deactivate r else r)
                 <$> user_watchlist st))
   ∧ (∀ r, r ∈ user_watchlist (snd (remove_from_watchlist env symbol st)) →
           UserWatchlist.symbol r = symbol → UserWatchlist.is_active r = false))
  ∧ (active_rows symbol st = [] →
     remove_from_watchlist env symbol st = (Returned false, st))
  ∧ ((∀ r, r ∈ user_watchlist st → UserWatchlist.symbol r ≠ symbol) →
     remove_from_watchlist env symbol st = (Returned false, st))
  ∧ (fst (remove_from_watchlist env symbol st) = Returned true
     ↔ snd (remove_from_watchlist env symbol st) ≠ st)
  ∧ (∀ env1 env3, plan env3 0%nat = None →
       ∃ l, fst (get_watchlist env3
                   (snd (remove_from_watchlist env symbol
                           (snd (add_to_watchlist env1 symbol st))))) = Returned l
            ∧ symbol ∉ l).
Proof.
  unfold first_fault. simpl. intros Hplan.
  destruct (plan env 0%nat) eqn:H0; [done|].
  destruct (plan env 1%nat) eqn:H1; [done|].
  destruct (plan env 2%nat) eqn:H2; [done|]. clear Hplan.
  assert (Hrun : ∀ st0, remove_from_watchlist env symbol st0 =
            match active_rows symbol st0 with
            | [] => (Returned false, st0)
            | _ :: _ => (Returned true, without_entry symbol st0)
            end).
  { intros st0. rewrite remove_from_watchlist_run, H0, H1, H2.
    by destruct (active_rows symbol st0). }
  assert (Hgone : ∀ st0, active_rows symbol (snd (remove_from_watchlist env symbol st0)) = []).
  { intros st0. rewrite Hrun.
    destruct (active_rows symbol st0) eqn:Hact; simpl; [done|].
    by rewrite active_rows_without_entry, decide_True. }
  split; [|split; [|split; [|split]]].
  - intros Hact. rewrite Hrun.
    destruct (active_rows symbol st) eqn:Hact'; [done|]. split; [done|].
    simpl. apply without_entry_deactivated.
  - intros Hact. by rewrite Hrun, Hact.
  - intros Hnone. by rewrite Hrun, active_rows_never_added.
  - rewrite Hrun. destruct (active_rows symbol st) eqn:Hact; simpl.
    + split; [done|]. by intros [].
    + split; [|done]. intros _. apply without_entry_changes. by rewrite Hact.
  - intros env1 env3 H3.
    destruct (get_watchlist_members env3
                (snd (remove_from_watchlist env symbol
                        (snd (add_to_watchlist env1 symbol st)))) symbol H3)
      as (l & Hl & Hmem).
    exists l. rewrite Hl. split; [done|].
    rewrite Hmem, Hgone. by intros [].
Qed.

Lemma add_to_watchlist_single_active env symbol st :
  single_active st → single_active (snd (add_to_watchlist env symbol st)).
Proof.
  intros Hinv. rewrite add_to_watchlist_run.
  destruct (plan env 0%nat); [done|].
  destruct (active_rows symbol st) as [|r rows] eqn:Hact; [|done].
  destruct (plan env 1%nat); [done|].
  intros s. simpl. rewrite active_rows_with_entry, length_app.
  destruct (decide (symbol = s)) as [<-|Hne]; simpl.
  - rewrite Hact. simpl. lia.
  - specialize (Hinv s). lia.
Qed.

Lemma remove_from_watchlist_single_active env symbol st :
  single_active st → single_active (snd (remove_from_watchlist env symbol st)).
Proof.
  intros Hinv. rewrite remove_from_watchlist_run.
  destruct (plan env 0%nat); [done|].
  destruct (active_rows symbol st); [done|].
  destruct (plan env 1%nat); [done|]. destruct (plan env 2%nat); [done|].
  intros s. simpl. rewrite active_rows_without_entry.
  case_decide; [simpl; lia | apply Hinv].
Qed.

(** Every store the operations can build from a fresh database keeps at most
    one active row per symbol. *)
Lemma reachable_single_active st : reachable st → single_active st.
Proof.
  induction 1 as [|env symbol bars st _ IH|env symbol company_data st _ IH
                  |env symbol st _ IH|env symbol st _ IH].
  - intros s. simpl. lia.
  - rewrite save_stock_data_run. by destruct (first_fault _ _).
  - rewrite save_company_info_run. by destruct (first_fault _ _).
  - by apply add_to_watchlist_single_active.
  - by apply remove_from_watchlist_single_active.
Qed.

(** C9: from a table with at most one active row per symbol, [add], [remove]
    and the listing keep that invariant, whatever faults they meet: [add]
    inserts only when [S] has no active row, and [remove] deactivates every
    row of [S]. *)
Theorem watchlist_single_active_preserved env symbol st :
  single_active st →
  single_active (snd (add_to_watchlist env symbol st))
  ∧ single_active (snd (remove_from_watchlist env symbol st))
  ∧ snd (get_watchlist env st) = st
  ∧ (snd (add_to_watchlist env symbol st) ≠ st → active_rows symbol st = [])
  ∧ (fst (remove_from_watchlist env symbol st) = Returned true →
     ∀ r, r ∈ user_watchlist (snd (remove_from_watchlist env symbol st)) →
          UserWatchlist.symbol r = symbol → UserWatchlist.is_active r = false).
Proof.
  intros Hinv.
  split; [by apply add_to_watchlist_single_active|].
  split; [by apply remove_from_watchlist_single_active|].
  rewrite add_to_watchlist_run, remove_from_watchlist_run, get_watchlist_run.
  split; [done|]. split.
  - destruct (plan env 0%nat); [done|].
    by destruct (active_rows symbol st).
  - destruct (plan env 0%nat); [done|].
    destruct (active_rows symbol st); [done|].
    destruct (plan env 1%nat); [done|]. destruct (plan env 2%nat); [done|].
    intros _. apply without_entry_deactivated.
Qed.

(** ** The listing against the state machine *)

Lemma StronglySorted_filter {X} (R : relation X) (P : X → Prop)
    `{!∀ x, Decision (P x)} (l : list X) :
  StronglySorted R l → StronglySorted R (filter P l).
Proof.
  induction 1 as [|x l Hs IH Hx]; [constructor|].
  rewrite filter_cons. case_decide; [|done].
  constructor; [done|].
  apply Forall_forall. intros y Hy. apply list_elem_of_filter in Hy as [_ Hy].
  rewrite Forall_forall in Hx. by apply Hx.
Qed.

Lemma filter_all {X} (P : X → Prop) `{!∀ x, Decision (P x)} (l : list X) :
  Forall P l → filter P l = l.
Proof.
  induction 1 as [|x l Hx Hl IH]; [done|].
  by rewrite filter_cons_True, IH.
Qed.

Lemma listing_members symbol st :
  symbol ∈ listing st ↔ active_rows symbol st ≠ [].
Proof.
  unfold listing. rewrite list_elem_of_fmap. split.
  - intros (r & -> & Hr). rewrite elem_of_reverse in Hr.
    apply list_elem_of_filter in Hr as [Hact Hin]. intros Hnil.
    assert (Hr : r ∈ active_rows (UserWatchlist.symbol r) st).
    { apply list_elem_of_filter. by repeat split. }
    rewrite Hnil in Hr. by apply not_elem_of_nil in Hr.
  - intros Hne. destruct (active_rows symbol st) as [|r rows] eqn:Hact; [done|].
    assert (Hr : r ∈ active_rows symbol st) by (rewrite Hact; left).
    apply list_elem_of_filter in Hr as [[Hs Ha] Hin].
    exists r. split; [done|]. rewrite elem_of_reverse.
    by apply list_elem_of_filter.
Qed.

Lemma get_watchlist_chronological t env st :
  chronological t st → plan env 0%nat = None →
  get_watchlist env st = (Returned (listing st), st).
Proof.
  intros [Hsorted _] H0. rewrite get_watchlist_run, H0. unfold listing.
  by rewrite order_by_desc_ascending by (by apply StronglySorted_filter).
Qed.

Lemma chronological_later t t' st : t ≤ t' → chronological t st → chronological t' st.
Proof.
  intros Hle [Hs Hb]. split; [done|].
  eapply Forall_impl; [exact Hb|]. simpl. intros r Hr. lia.
Qed.

Lemma with_entry_chronological t env symbol st :
  chronological t st → t ≤ utcnow env →
  chronological (utcnow env + 1) (with_entry env symbol st).
Proof.
  intros [Hs Hb] Hle. unfold chronological, with_entry. simpl. split.
  - apply StronglySorted_app_2; [|done|repeat constructor].
    intros r1 r2 Hr1 Hr2. apply list_elem_of_singleton in Hr2 as ->. simpl.
    rewrite Forall_forall in Hb. specialize (Hb r1 Hr1). simpl in Hb. lia.
  - apply Forall_app. split.
    + eapply Forall_impl; [exact Hb|]. simpl. intros r Hr. lia.
    + repeat constructor. simpl. lia.
Qed.

Lemma without_entry_chronological t symbol st :
  chronological t st → chronological t (without_entry symbol st).
Proof.
  intros [Hs Hb]. unfold chronological, without_entry. simpl. split.
  - eapply StronglySorted_fmap; [|exact Hs]. intros x y Hxy. by repeat case_decide.
  - apply Forall_fmap. eapply Forall_impl; [exact Hb|]. simpl. intros r Hr.
    by case_decide.
Qed.

Lemma with_entry_listing env symbol st :
  listing (with_entry env symbol st) = symbol :: listing st.
Proof.
  unfold listing, with_entry. simpl.
  rewrite filter_app, filter_cons_True, filter_nil by done.
  by rewrite reverse_snoc.
Qed.

Lemma without_entry_listing symbol st :
  listing (without_entry symbol st) = Spec.remove symbol (listing st).
Proof.
  unfold listing, without_entry, Spec.remove. simpl.
  rewrite (filter_fmap UserWatchlist.symbol), filter_reverse. f_equal. f_equal.
  induction (user_watchlist st) as [|r rows IH]; [done|].
  rewrite fmap_cons, !filter_cons, IH.
  destruct (decide (UserWatchlist.symbol r = symbol)) as [Hr|Hr]; simpl.
  - destruct (decide (UserWatchlist.is_active r = true)); [|done].
    by rewrite filter_cons_False by (by intros ?).
  - destruct (decide (UserWatchlist.is_active r = true)); [|done].
    by rewrite filter_cons_True.
Qed.

Lemma run_op_refines t st c :
  chronological t st → t ≤ c.1 →
  chronological (c.1 + 1) (run_op st c)
  ∧ listing (run_op st c) = Spec.step (listing st) c.
Proof.
  intros Hchr Hle. destruct c as [t' [symbol|symbol]]; simpl in *.
  - rewrite add_to_watchlist_run. simpl. unfold Spec.add.
    destruct (active_rows symbol st) as [|r rows] eqn:Hact; simpl.
    + split.
      * by apply (with_entry_chronological t (clock_env t')).
      * rewrite with_entry_listing, decide_False; [done|].
        rewrite listing_members, Hact. by intros [].
    + split.
      * apply (chronological_later t); [lia|done].
      * rewrite decide_True; [done|]. by rewrite listing_members, Hact.
  - rewrite remove_from_watchlist_run. simpl.
    destruct (active_rows symbol st) as [|r rows] eqn:Hact; simpl.
    + split.
      * apply (chronological_later t); [lia|done].
      * unfold Spec.remove. rewrite filter_all; [done|].
        apply Forall_forall. intros s Hs ->.
        apply listing_members in Hs. by rewrite Hact in Hs.
    + split.
      * apply without_entry_chronological. apply (chronological_later t); [lia|done].
      * apply without_entry_listing.
Qed.

Lemma run_ops_refines calls : ∀ t st,
  chronological t st → clock_grows t calls →
  (∃ t', chronological t' (run_ops st calls))
  ∧ listing (run_ops st calls) = Spec.run (listing st) calls.
Proof.
  induction calls as [|[t1 op] calls IH]; intros t st Hchr Hclock.
  - split; [by exists t|done].
  - destruct Hclock as [Hle Hclock].
    destruct (run_op_refines t st (t1, op) Hchr Hle) as [Hchr' Hl].
    destruct (IH _ _ Hchr' Hclock) as [Hex Hrun].
    change (run_ops st ((t1, op) :: calls)) with (run_ops (run_op st (t1, op)) calls).
    change (Spec.run (listing st) ((t1, op) :: calls))
      with (Spec.run (Spec.step (listing st) (t1, op)) calls).
    split; [done|]. by rewrite Hrun, Hl.
Qed.

(** C7: [get_watchlist] returns the symbols of the active entries, the one
    that became Active last first: on rows in chronological order it returns
    the listing of the store, and after any calls of [add] and [remove] made
    at growing clock readings it returns what the state machine of the
    specification lists. *)
Theorem get_watchlist_most_recent_first t st calls env :
  chronological t st → clock_grows t calls → plan env 0%nat = None →
  (∃ l, get_watchlist env st = (Returned l, st)
        ∧ l ≡ₚ UserWatchlist.symbol <$>
                 filter (λ r, UserWatchlist.is_active r = true) (user_watchlist st)
        ∧ l = listing st)
  ∧ get_watchlist env (run_ops st calls) =
      (Returned (Spec.run (listing st) calls), run_ops st calls).
Proof.
  intros Hchr Hclock H0. split.
  - exists (listing st). split; [by apply (get_watchlist_chronological t)|].
    split; [|done]. unfold listing. by rewrite reverse_Permutation.
  - destruct (run_ops_refines calls t st Hchr Hclock) as [[t' Hchr'] Hrun].
    rewrite <- Hrun. by apply (get_watchlist_chronological t').
Qed.

(** ** The statements at sample inputs *)

Lemma add_to_watchlist_idempotent_witness :
  add_to_watchlist (sample_env 1) "AAPL" empty_store =
    (Returned true, mkStore [] ∅ [UserWatchlist.mk "AAPL" (1 * day) true])
  ∧ add_to_watchlist (sample_env 3) "AAPL" sample_watchlist =
      (Returned false, sample_watchlist)
  ∧ length (active_rows "AAPL"
              (snd (add_to_watchlist (sample_env 2) "AAPL"
                      (snd (add_to_watchlist (sample_env 1) "AAPL" empty_store)))))
    = 1%nat.
Proof.
  destruct (add_to_watchlist_idempotent (sample_env 1) "AAPL" empty_store
              eq_refl eq_refl) as (_ & Hnew & _ & Hone).
  destruct (add_to_watchlist_idempotent (sample_env 3) "AAPL" sample_watchlist
              eq_refl eq_refl) as (Hold & _).
  split; [|split].
  - apply Hnew. reflexivity.
  - apply Hold. discriminate.
  - apply Hone. simpl. lia.
Defined.

Lemma sample_watchlist_never_had_MSFT r :
  r ∈ user_watchlist sample_watchlist → UserWatchlist.symbol r ≠ "MSFT".
Proof.
  unfold sample_watchlist. simpl. rewrite !elem_of_cons, elem_of_nil.
  intros [->|[->|[]]]; discriminate.
Qed.

Lemma remove_from_watchlist_deactivates_witness :
  remove_from_watchlist (sample_env 3) "AAPL" sample_watchlist =
    (Returned true,
     mkStore [] ∅ [UserWatchlist.mk "AAPL" (1 * day) false;
                   UserWatchlist.mk "TSLA" (2 * day) true])
  ∧ remove_from_watchlist (sample_env 3) "MSFT" sample_watchlist =
      (Returned false, sample_watchlist)
  ∧ ∃ l, fst (get_watchlist (sample_env 3)
                (snd (remove_from_watchlist (sample_env 2) "AAPL"
                        (snd (add_to_watchlist (sample_env 1) "AAPL" empty_store)))))
         = Returned l ∧ "AAPL" ∉ l.
Proof.
  destruct (remove_from_watchlist_deactivates (sample_env 3) "AAPL" sample_watchlist
              eq_refl) as (Hactive & _).
  destruct (remove_from_watchlist_deactivates (sample_env 3) "MSFT" sample_watchlist
              eq_refl) as (_ & _ & Hnever & _).
  split; [|split].
  - apply Hactive. discriminate.
  - apply Hnever. apply sample_watchlist_never_had_MSFT.
  - apply (remove_from_watchlist_deactivates (sample_env 2) "AAPL" empty_store eq_refl).
    reflexivity.
Defined.

Lemma sample_watchlist_single_active : single_active sample_watchlist.
Proof.
  intros s. unfold active_rows, sample_watchlist. simpl.
  rewrite !filter_cons, filter_nil. unfold active_for. simpl.
  destruct (decide (s = "AAPL")) as [->|Hne].
  - rewrite decide_True by done. rewrite decide_False; [simpl; lia|].
    intros [? _]. discriminate.
  - rewrite decide_False by (by intros [? _]). case_decide; simpl; lia.
Qed.

Lemma watchlist_single_active_preserved_witness :
  single_active (snd (add_to_watchlist (sample_env 3) "MSFT" sample_watchlist))
  ∧ single_active (snd (remove_from_watchlist (sample_env 3) "AAPL" sample_watchlist)).
Proof.
  destruct (watchlist_single_active_preserved (sample_env 3) "MSFT" sample_watchlist
              sample_watchlist_single_active) as (Hadd & _).
  destruct (watchlist_single_active_preserved (sample_env 3) "AAPL" sample_watchlist
              sample_watchlist_single_active) as (_ & Hrem & _).
  split; [exact Hadd | exact Hrem].
Defined.

Lemma get_watchlist_most_recent_first_witness :
  fst (get_watchlist (sample_env 4) (run_ops empty_store [(1, Add "AAPL")]))
    = Returned ["AAPL"]
  ∧ fst (get_watchlist (sample_env 4)
           (run_ops empty_store [(1, Add "AAPL"); (2, Add "TSLA")]))
    = Returned ["TSLA"; "AAPL"]
  ∧ fst (get_watchlist (sample_env 4) (run_ops empty_store sample_calls))
    = Returned ["TSLA"].
Proof.
  assert (Hfresh : chronological 0 empty_store) by (split; constructor).
  split; [|split].
  - destruct (get_watchlist_most_recent_first 0 empty_store [(1, Add "AAPL")]
                (sample_env 4) Hfresh) as [_ H];
      [simpl; lia | reflexivity |].
    rewrite H. reflexivity.
  - destruct (get_watchlist_most_recent_first 0 empty_store
                [(1, Add "AAPL"); (2, Add "TSLA")]
                (sample_env 4) Hfresh) as [_ H];
      [simpl; lia | reflexivity |].
    rewrite H. reflexivity.
  - destruct (get_watchlist_most_recent_first 0 empty_store sample_calls
                (sample_env 4) Hfresh) as [_ H];
      [simpl; lia | reflexivity |].
    rewrite H. reflexivity.
Defined.

(** ** Failures stay inside the store operations *)

Lemma frame_ret {A} (a : A) : frame (ret a).
Proof. done. Qed.

Lemma frame_point env : frame (point env).
Proof. intros s. rewrite point_run. done. Qed.

Lemma frame_get_txn : frame get_txn.
Proof. done. Qed.

Lemma frame_set_txn t : frame (set_txn t).
Proof. done. Qed.

Lemma frame_add o : frame (add o).
Proof. done. Qed.

Lemma frame_bind {A B} (m : db A) (k : A → db B) :
  frame m → (∀ a, frame (k a)) → frame (bind m k).
Proof.
  intros Hm Hk s. rewrite bind_run. specialize (Hm s).
  destruct (m s) as [[a|e] s1]; simpl in *; [|done].
  by rewrite Hk.
Qed.

Lemma frame_for_each {X} (xs : list X) (body : X → db unit) :
  (∀ x, frame (body x)) → frame (for_each xs body).
Proof.
  intros Hbody. induction xs as [|x xs IH]; simpl; [done|].
  apply frame_bind; [done|]. by intros _.
Qed.

Lemma frame_query {X} env (table : Store → X) : frame (query env table).
Proof.
  unfold query. apply frame_bind; [apply frame_point|]. intros _.
  apply frame_bind; [apply frame_get_txn|]. intros t. apply frame_ret.
Qed.

Lemma frame_delete_stock_data env (P : StockData.t → Prop) `{!∀ r, Decision (P r)} :
  frame (delete_stock_data env P).
Proof.
  unfold delete_stock_data. apply frame_bind; [apply frame_point|]. intros _.
  apply frame_bind; [apply frame_get_txn|]. intros t. apply frame_set_txn.
Qed.

Lemma frame_update_company_info env symbol row :
  frame (update_company_info env symbol row).
Proof.
  unfold update_company_info. apply frame_bind; [apply frame_point|]. intros _.
  apply frame_bind; [apply frame_get_txn|]. intros t. apply frame_set_txn.
Qed.

Lemma frame_update_user_watchlist env symbol :
  frame (update_user_watchlist env symbol).
Proof.
  unfold update_user_watchlist. apply frame_bind; [apply frame_point|]. intros _.
  apply frame_bind; [apply frame_get_txn|]. intros t. apply frame_set_txn.
Qed.

Lemma frame_raise_safe {A} (m : db A) : frame m → raise_safe m.
Proof. intros Hm s e s' Hs. specialize (Hm s). by rewrite Hs in Hm. Qed.

Lemma raise_safe_bind {A B} (m : db A) (k : A → db B) :
  frame m → (∀ a, raise_safe (k a)) → raise_safe (bind m k).
Proof.
  intros Hm Hk s e s'. rewrite bind_run. specialize (Hm s).
  destruct (m s) as [[a|e1] s1]; simpl in *.
  - intros Hs. apply Hk in Hs. congruence.
  - intros [= <- <-]. done.
Qed.

(** [commit] raises before anything is written, and nothing after it raises. *)
Lemma raise_safe_commit env (b : bool) : raise_safe (commit env ;; ret b).
Proof.
  intros s e s'. unfold commit. rewrite !bind_run, point_run.
  destruct (plan env (points s)); simpl; [|done]. by intros [= <- <-].
Qed.

Create HintDb store_safety.

Global Hint Resolve frame_ret frame_point frame_get_txn frame_set_txn frame_add
  frame_query frame_delete_stock_data frame_update_company_info
  frame_update_user_watchlist frame_raise_safe raise_safe_commit : store_safety.

Lemma save_stock_data_try_raise_safe env symbol bars :
  raise_safe (save_stock_data_try env symbol bars).
Proof.
  unfold save_stock_data_try.
  apply raise_safe_bind; [auto with store_safety|]. intros _.
  apply raise_safe_bind; [|auto with store_safety].
  apply frame_for_each. intros row. apply frame_bind; auto with store_safety.
Qed.

Lemma save_company_info_try_raise_safe env symbol company_data :
  raise_safe (save_company_info_try env symbol company_data).
Proof.
  unfold save_company_info_try.
  apply raise_safe_bind; [auto with store_safety|]. intros [c|];
    (apply raise_safe_bind; [auto with store_safety|]); intros _;
    auto with store_safety.
Qed.

Lemma add_to_watchlist_try_raise_safe env symbol :
  raise_safe (add_to_watchlist_try env symbol).
Proof.
  unfold add_to_watchlist_try.
  apply raise_safe_bind; [auto with store_safety|]. intros [r|].
  - auto with store_safety.
  - apply raise_safe_bind; auto with store_safety.
Qed.

Lemma remove_from_watchlist_try_raise_safe env symbol :
  raise_safe (remove_from_watchlist_try env symbol).
Proof.
  unfold remove_from_watchlist_try.
  apply raise_safe_bind; [auto with store_safety|]. intros [r|].
  - apply raise_safe_bind; auto with store_safety.
  - auto with store_safety.
Qed.

Lemma get_cached_stock_data_try_frame env symbol period :
  frame (get_cached_stock_data_try env symbol period).
Proof.
  unfold get_cached_stock_data_try.
  apply frame_bind; [auto with store_safety|]. intros [|r records]; apply frame_ret.
Qed.

Lemma get_company_info_from_db_try_frame env symbol :
  frame (get_company_info_from_db_try env symbol).
Proof.
  unfold get_company_info_from_db_try.
  apply frame_bind; [auto with store_safety|]. intros [c|]; apply frame_ret.
Qed.

Lemma get_watchlist_try_frame env : frame (get_watchlist_try env).
Proof.
  unfold get_watchlist_try.
  apply frame_bind; [auto with store_safety|]. intros l. apply frame_ret.
Qed.

(** A write: [except Exception: db.rollback(); return False]. *)
Lemma guarded_write (body : db bool) :
  raise_safe body →
  safe_default
    (with_session (try_finally (try_except body (λ e, rollback ;; ret false)) close))
    body false.
Proof.
  intros Hsafe st. unfold with_session, try_finally, try_except. fold (session_on st).
  destruct (body (session_on st)) as [[b|e] s1] eqn:Hbody; simpl.
  - split; [done|]. intros e s' [=].
  - split; [done|]. intros e' s' _. by rewrite (Hsafe _ _ _ Hbody).
Qed.

(** A read: [except Exception: return default]. *)
Lemma guarded_read {A} (body : db A) (default : A) :
  frame body →
  safe_default
    (with_session (try_finally (try_except body (λ e, ret default)) close))
    body default.
Proof.
  intros Hframe st. unfold with_session, try_finally, try_except. fold (session_on st).
  specialize (Hframe (session_on st)).
  destruct (body (session_on st)) as [[b|e] s1] eqn:Hbody; simpl in *.
  - split; [done|]. intros e s' [=].
  - split; [done|]. intros e' s' _. by rewrite Hframe.
Qed.

Lemma get_popular_stocks_try_frame env : frame (get_popular_stocks_try env).
Proof.
  unfold get_popular_stocks_try.
  apply frame_bind; [auto with store_safety|]. intros l. apply frame_ret.
Qed.

Lemma init_database_run env st :
  init_database env st =
  (Returned match plan env 0%nat with Some _ => false | None => true end, st).
Proof.
  unfold init_database, try_except, create_all. rewrite bind_run.
  by destruct (plan env 0%nat).
Qed.

(** C8: no operation of the store raises to its caller.  Each of them
    returns on every store and under every fault plan, and when its [try]
    block raises, the result is the safe default ([False] for the writes,
    [None] for the single reads, the empty list for the listings) and the
    store is as it was. *)
Theorem store_operations_never_raise env symbol period bars company_data :
  safe_default (save_stock_data env symbol bars)
               (save_stock_data_try env symbol bars) false
  ∧ safe_default (save_company_info env symbol company_data)
                 (save_company_info_try env symbol company_data) false
  ∧ safe_default (add_to_watchlist env symbol) (add_to_watchlist_try env symbol) false
  ∧ safe_default (remove_from_watchlist env symbol)
                 (remove_from_watchlist_try env symbol) false
  ∧ safe_default (get_cached_stock_data env symbol period)
                 (get_cached_stock_data_try env symbol period) None
  ∧ safe_default (get_company_info_from_db env symbol)
                 (get_company_info_from_db_try env symbol) None
  ∧ safe_default (get_watchlist env) (get_watchlist_try env) []
  ∧ safe_default (get_popular_stocks env) (get_popular_stocks_try env) []
  ∧ (∀ st, returns (init_database env st).1
           ∧ ∀ e st', (create_all env ;; ret true) st = (Raised e, st') →
                      init_database env st = (Returned false, st)).
Proof.
  repeat apply conj.
  - apply guarded_write, save_stock_data_try_raise_safe.
  - apply guarded_write, save_company_info_try_raise_safe.
  - apply guarded_write, add_to_watchlist_try_raise_safe.
  - apply guarded_write, remove_from_watchlist_try_raise_safe.
  - apply guarded_read, get_cached_stock_data_try_frame.
  - apply guarded_read, get_company_info_from_db_try_frame.
  - apply guarded_read, get_watchlist_try_frame.
  - apply guarded_read, get_popular_stocks_try_frame.
  - intros st. rewrite init_database_run. split; [done|].
    intros e st'. unfold create_all. rewrite bind_run.
    by destruct (plan env 0%nat).
Qed.

Lemma store_operations_never_raise_witness :
  save_stock_data (faulty_env 101 2) "AAPL" sample_bars2 sample_store
    = (Returned false, sample_store)
  ∧ add_to_watchlist (faulty_env 3 1) "MSFT" sample_watchlist
    = (Returned false, sample_watchlist)
  ∧ get_cached_stock_data (faulty_env 101 0) "AAPL" "1mo" sample_store
    = (Returned None, sample_store)
  ∧ get_watchlist (faulty_env 3 0) sample_watchlist = (Returned [], sample_watchlist).
Proof.
  destruct (store_operations_never_raise (faulty_env 101 2) "AAPL" "1mo" sample_bars2 ∅)
    as (Hsave & _).
  destruct (store_operations_never_raise (faulty_env 3 1) "MSFT" "1mo" [] ∅)
    as (_ & _ & Hadd & _).
  destruct (store_operations_never_raise (faulty_env 101 0) "AAPL" "1mo" [] ∅)
    as (_ & _ & _ & _ & Hcached & _).
  destruct (store_operations_never_raise (faulty_env 3 0) "" "" [] ∅)
    as (_ & _ & _ & _ & _ & _ & Hlist & _).
  split; [|split; [|split]].
  - eapply (proj2 (Hsave sample_store)). reflexivity.
  - eapply (proj2 (Hadd sample_watchlist)). reflexivity.
  - eapply (proj2 (Hcached sample_store)). reflexivity.
  - eapply (proj2 (Hlist sample_watchlist)). reflexivity.
Defined.

(** ** The fetch with fallback *)

Lemma save_stock_data_returns env symbol bars st :
  ∃ b st', save_stock_data env symbol bars st = (Returned b, st').
Proof. rewrite save_stock_data_run. destruct (first_fault _ _); eauto. Qed.

Lemma save_company_info_returns env symbol company_data st :
  ∃ b st', save_company_info env symbol company_data st = (Returned b, st').
Proof. rewrite save_company_info_run. destruct (first_fault _ _); eauto. Qed.

(** When the live part raises, no store operation has run yet. *)
Lemma fetch_live_raised w symbol period interval st e st' :
  fetch_live w symbol period interval st = (Raised e, st') → st' = st.
Proof.
  unfold fetch_live, call. rewrite !bind_run.
  destruct (Ticker.history _ _ _) as [hist|e1]; [|by intros [= _ <-]].
  rewrite !bind_run.
  destruct (Ticker.info _) as [info|e1]; [|by intros [= _ <-]].
  rewrite !bind_run.
  destruct (info !! "regularMarketPrice"); [|by intros [= _ <-]].
  unfold ret at 1. rewrite !bind_run.
  destruct hist as [|b hist].
  - unfold ret at 1. case_decide.
    + by rewrite bind_run.
    + rewrite !bind_run.
      destruct (save_company_info_returns (env_save_company_info w) symbol info st)
        as (b1 & st1 & ->). done.
  - rewrite !bind_run.
    destruct (save_stock_data_returns (env_save_stock_data w) symbol (b :: hist) st)
      as (b1 & st1 & ->).
    unfold ret at 1. case_decide.
    + by rewrite bind_run.
    + rewrite !bind_run.
      destruct (save_company_info_returns (env_save_company_info w) symbol info st1)
        as (b2 & st2 & ->). done.
Qed.

Lemma fetch_data_run w symbol period interval st :
  ∃ cached cached_info,
    get_cached_stock_data (env_cached w) symbol period st = (Returned cached, st)
    ∧ get_company_info_from_db (env_cached_info w) symbol st = (Returned cached_info, st)
    ∧ fetch_data w symbol period interval st =
        match fetch_live w symbol period interval st with
        | (Returned r, st') => (Returned r, st')
        | (Raised e, st') =>
            fetch_data_except (Some cached) (Some cached_info) e st'
        end.
Proof.
  unfold fetch_data, try_let, try_except.
  rewrite get_cached_stock_data_run, get_company_info_from_db_run.
  eexists _, _. repeat split.
Qed.

(** C1: when the live part of [fetch_data] raises, the result has
    [success = True] exactly when both the cached bars and the cached
    snapshot read at the start of the call are present, and then it carries
    exactly those; otherwise it has [success = False] with no bars and no
    snapshot.  The store is left as it was. *)
Theorem fetch_data_falls_back_to_cache w symbol period interval st e st' :
  fetch_live w symbol period interval st = (Raised e, st') →
  ∃ cached cached_info r,
    get_cached_stock_data (env_cached w) symbol period st = (Returned cached, st)
    ∧ get_company_info_from_db (env_cached_info w) symbol st = (Returned cached_info, st)
    ∧ fetch_data w symbol period interval st = (Returned r, st)
    ∧ (success r = true ↔ is_Some cached ∧ is_Some cached_info)
    ∧ (success r = true → historical r = cached ∧ info r = cached_info)
    ∧ (success r = false → historical r = None ∧ info r = None).
Proof.
  intros Hlive. pose proof (fetch_live_raised _ _ _ _ _ _ _ Hlive) as ->.
  destruct (fetch_data_run w symbol period interval st)
    as (cached & cached_info & Hc & Hci & Hrun).
  rewrite Hlive in Hrun. exists cached, cached_info.
  destruct cached as [bars|], cached_info as [snapshot|]; simpl in Hrun;
    eexists; (split; [exact Hc|]); (split; [exact Hci|]); (split; [exact Hrun|]);
    simpl; repeat split; try done;
    try (intros [[? ?] [? ?]]; done); try (intros [? ?]; done).
Qed.

Lemma contains_app_r needle prefix hay :
  contains needle hay = true → contains needle (prefix ++ hay)%string = true.
Proof.
  intros Hc. induction prefix as [|a prefix IH]; [done|].
  change (String a prefix ++ hay)%string with (String a (prefix ++ hay)%string).
  simpl contains. rewrite IH. apply orb_true_r.
Qed.

(** C2: when the provider answers and its metadata has no
    ['regularMarketPrice'], the live part raises a [ValueError] whose message
    contains [not found]; when the bars or the snapshot are missing from the
    cache, [fetch_data] returns a failure carrying that message. *)
Theorem fetch_data_symbol_not_found w symbol period interval st hist info :
  Ticker.history (yf_Ticker w symbol) period interval = Returned hist →
  Ticker.info (yf_Ticker w symbol) = Returned info →
  info !! "regularMarketPrice" = None →
  let msg := ("Symbol '" ++ symbol ++ "' not found or no data available.")%string in
  fetch_live w symbol period interval st = (Raised (ValueError msg), st)
  ∧ contains "not found" msg = true
  ∧ ((get_cached_stock_data (env_cached w) symbol period st).1 = Returned None
     ∨ (get_company_info_from_db (env_cached_info w) symbol st).1 = Returned None →
     fetch_data w symbol period interval st =
       (Returned (mkFetchResult None None false (Some msg)), st)).
Proof.
  intros Hhist Hinfo Hprice msg.
  assert (Hlive : fetch_live w symbol period interval st = (Raised (ValueError msg), st)).
  { unfold fetch_live, call. rewrite !bind_run, Hhist.
    rewrite !bind_run, Hinfo. rewrite !bind_run, Hprice. done. }
  split; [done|]. split.
  { unfold msg. apply (contains_app_r _ "Symbol '"), contains_app_r. reflexivity. }
  intros Hnone.
  destruct (fetch_data_run w symbol period interval st)
    as (cached & cached_info & Hc & Hci & Hrun).
  rewrite Hrun, Hlive. rewrite Hc, Hci in Hnone. simpl in Hnone.
  destruct Hnone as [[= ->]|[= ->]]; [done|]. by destruct cached.
Qed.

Lemma fetch_data_falls_back_to_cache_witness :
  (∃ r, fetch_data (sample_world offline) "AAPL" "1mo" "1d" cached_store
          = (Returned r, cached_store)
        ∧ success r = true
        ∧ historical r = Some [sample_bar 80 2; sample_bar 99 3]
        ∧ info r = Some (info_of_company sample_company))
  ∧ (∃ r, fetch_data (sample_world offline) "AAPL" "1mo" "1d" sample_store
            = (Returned r, sample_store)
          ∧ success r = false ∧ historical r = None ∧ info r = None).
Proof.
  split.
  - destruct (fetch_data_falls_back_to_cache (sample_world offline) "AAPL" "1mo" "1d"
                cached_store (mkExn "ConnectionError" "provider unreachable")
                cached_store eq_refl)
      as (cached & cached_info & r & Hc & Hci & Hr & Hiff & Hyes & _).
    assert (Hc' : get_cached_stock_data (env_cached (sample_world offline)) "AAPL" "1mo"
                    cached_store
                  = (Returned (Some [sample_bar 80 2; sample_bar 99 3]), cached_store))
      by reflexivity.
    assert (Hci' : get_company_info_from_db (env_cached_info (sample_world offline))
                     "AAPL" cached_store
                   = (Returned (Some (info_of_company sample_company)), cached_store))
      by reflexivity.
    rewrite Hc' in Hc. rewrite Hci' in Hci.
    injection Hc as <-. injection Hci as <-.
    assert (Hs : success r = true) by (apply Hiff; split; eexists; reflexivity).
    exists r. destruct (Hyes Hs) as [Hh Hi]. repeat split; assumption.
  - destruct (fetch_data_falls_back_to_cache (sample_world offline) "AAPL" "1mo" "1d"
                sample_store (mkExn "ConnectionError" "provider unreachable")
                sample_store eq_refl)
      as (cached & cached_info & r & Hc & Hci & Hr & Hiff & _ & Hno).
    assert (Hci' : get_company_info_from_db (env_cached_info (sample_world offline))
                     "AAPL" sample_store
                   = (Returned None, sample_store))
      by reflexivity.
    rewrite Hci' in Hci. injection Hci as <-.
    assert (Hs : success r = false).
    { destruct (success r) eqn:Hsr; [|reflexivity].
      destruct (proj1 Hiff eq_refl) as [_ [x Hx]]. discriminate Hx. }
    exists r. destruct (Hno Hs) as [Hh Hi]. repeat split; assumption.
Defined.

Lemma fetch_data_symbol_not_found_witness :
  fetch_data (sample_world unknown_symbol) "BADSYM" "1mo" "1d" empty_store =
    (Returned (mkFetchResult None None false
                 (Some "Symbol 'BADSYM' not found or no data available.")),
     empty_store)
  ∧ contains "not found" "Symbol 'BADSYM' not found or no data available." = true.
Proof.
  destruct (fetch_data_symbol_not_found (sample_world unknown_symbol) "BADSYM" "1mo" "1d"
              empty_store [] ∅ eq_refl eq_refl eq_refl) as (_ & Hmsg & Hfail).
  split.
  - apply Hfail. left. reflexivity.
  - exact Hmsg.
Defined.

(** * Further properties of the store *)

(** ** Company snapshots *)

Lemma info_of_company_other company key :
  key ∉ snapshot_keys → info_of_company company !! key = None.
Proof.
  intros Hkey. unfold info_of_company.
  rewrite !lookup_insert_ne; [apply lookup_empty|..];
    intros <-; apply Hkey; unfold snapshot_keys; set_solver.
Qed.



(** X2: whatever faults it meets, [save_company_info] touches neither the
    price bars nor the watchlist nor the snapshot of any other symbol, and
    never removes a snapshot. *)
Theorem save_company_info_frame env symbol company_data st :
  let st' := snd (save_company_info env symbol company_data st) in
  stock_data st' = stock_data st
  ∧ user_watchlist st' = user_watchlist st
  ∧ (∀ s, s ≠ symbol → company_info st' !! s = company_info st !! s)
  ∧ (∀ s, is_Some (company_info st !! s) → is_Some (company_info st' !! s)).
Proof.
  intros st'. subst st'. rewrite save_company_info_run.
  destruct (first_fault _ _); simpl; [done|].
  split; [done|]. split; [done|]. split.
  - intros s Hs. by rewrite lookup_insert_ne.
  - intros s Hs. destruct (decide (symbol = s)) as [->|Hne].
    + rewrite lookup_insert_eq. by eexists.
    + by rewrite lookup_insert_ne.
Qed.

(** ** Price bars *)

(** X3: whatever faults it meets, [save_stock_data] touches neither the
    snapshots nor the watchlist nor the bars of any other symbol. *)
Theorem save_stock_data_frame env symbol bars st :
  let st' := snd (save_stock_data env symbol bars st) in
  company_info st' = company_info st
  ∧ user_watchlist st' = user_watchlist st
  ∧ ∀ other, other ≠ symbol →
      filter (λ r, StockData.symbol r = other) (stock_data st')
      = filter (λ r, StockData.symbol r = other) (stock_data st).
Proof.
  intros st'. subst st'. rewrite save_stock_data_run.
  destruct (first_fault _ _); simpl; [done|].
  split; [done|]. split; [done|]. intros other Hne.
  rewrite filter_app, filter_fmap. simpl.
  assert (Hnone : filter (λ x : Bar.t, symbol = other) bars = []).
  { induction bars as [|b bars IH]; [done|]. by rewrite filter_cons_False. }
  rewrite Hnone, app_nil_r.
  apply list_filter_filter_l. intros r Hr [Hs _]. congruence.
Qed.



(** X5: at one clock reading, the cache read of a period with a longer
    window has data whenever that of a shorter one has, and contains all of
    its bars. *)
Theorem get_cached_stock_data_longer_period env symbol period1 period2 st df1 :
  period_days period1 ≤ period_days period2 →
  plan env 0%nat = None →
  (get_cached_stock_data env symbol period1 st).1 = Returned (Some df1) →
  ∃ df2, (get_cached_stock_data env symbol period2 st).1 = Returned (Some df2)
         ∧ df1 ⊆ df2.
Proof.
  intros Hle H0. rewrite !get_cached_stock_data_run, H0. simpl.
  set (w1 := now env - timedelta (period_days period1)).
  set (w2 := now env - timedelta (period_days period2)).
  assert (Hw : w2 ≤ w1) by (unfold w1, w2, timedelta; lia).
  pose proof (order_by_perm StockData.date (filter (in_window symbol w1) (stock_data st)))
    as Hp1.
  pose proof (order_by_perm StockData.date (filter (in_window symbol w2) (stock_data st)))
    as Hp2.
  assert (Hsub : ∀ r, r ∈ order_by StockData.date (filter (in_window symbol w1) (stock_data st))
                 → r ∈ order_by StockData.date (filter (in_window symbol w2) (stock_data st))).
  { intros r. rewrite Hp1, Hp2, !list_elem_of_filter. unfold in_window.
    intros [[? ?] ?]. repeat split; [done|lia|done]. }
  destruct (order_by _ (filter (in_window symbol w1) _)) as [|r1 l1] eqn:H1; [done|].
  intros [= <-].
  destruct (order_by _ (filter (in_window symbol w2) _)) as [|r2 l2] eqn:H2.
  { specialize (Hsub r1 ltac:(left)). by apply not_elem_of_nil in Hsub. }
  eexists. split; [reflexivity|].
  intros b Hb.
  change (b ∈ bar_of_record <$> (r1 :: l1)) in Hb.
  apply list_elem_of_fmap in Hb as (r & -> & Hr).
  change (bar_of_record r ∈ bar_of_record <$> (r2 :: l2)).
  apply list_elem_of_fmap_2. by apply Hsub.
Qed.

(** X6: [get_popular_stocks] leaves the store alone and returns at most ten
    symbols, none twice, each with a bar created within the last seven days;
    it returns the empty list when its query raises. *)
Theorem get_popular_stocks_bounds env st :
  ∃ popular,
    get_popular_stocks env st = (Returned popular, st)
    ∧ (length popular ≤ 10)%nat
    ∧ NoDup popular
    ∧ (∀ s, s ∈ popular →
         ∃ r, r ∈ stock_data st ∧ StockData.symbol r = s
              ∧ now env - timedelta 7 ≤ StockData.created_at r)
    ∧ (plan env 0%nat ≠ None → popular = []).
Proof.
  unfold get_popular_stocks, get_popular_stocks_try. run_session.
  destruct (plan env 0%nat) as [e|]; simpl.
  - exists []. repeat split; [simpl; lia | constructor | by intros s Hs%not_elem_of_nil].
  - eexists. split; [reflexivity|]. split; [|split; [|split]].
    + rewrite length_take. lia.
    + eapply sublist_NoDup; [apply NoDup_remove_dups | apply sublist_take].
    + intros s Hs. apply subseteq_take in Hs.
      apply elem_of_remove_dups, list_elem_of_fmap in Hs as (r & -> & Hr).
      apply list_elem_of_filter in Hr as [Hc Hr]. by exists r.
    + by intros [].
Qed.

(** ** Watchlist history *)

Lemma without_entry_row_keys symbol st :
  row_key <$> user_watchlist (without_entry symbol st) = row_key <$> user_watchlist st.
Proof.
  unfold without_entry. simpl. rewrite <- list_fmap_compose.
  apply list_fmap_ext. intros i r _. simpl. by case_decide.
Qed.

(** X7: the watchlist only grows: [add_to_watchlist] keeps every row and its
    [symbol] and [added_at], adding at most new rows behind them;
    [remove_from_watchlist] keeps the rows, their symbols and their
    [added_at] as they are; neither touches bars or snapshots. *)
Theorem watchlist_rows_never_deleted env symbol st :
  let added := snd (add_to_watchlist env symbol st) in
  let removed := snd (remove_from_watchlist env symbol st) in
  (row_key <$> user_watchlist st) `prefix_of` (row_key <$> user_watchlist added)
  ∧ row_key <$> user_watchlist removed = row_key <$> user_watchlist st
  ∧ stock_data added = stock_data st ∧ company_info added = company_info st
  ∧ stock_data removed = stock_data st ∧ company_info removed = company_info st.
Proof.
  intros added removed. subst added removed.
  rewrite add_to_watchlist_run, remove_from_watchlist_run.
  split; [|split].
  - destruct (plan env 0%nat); [done|].
    destruct (active_rows symbol st); [|done].
    destruct (plan env 1%nat); [done|]. simpl. rewrite fmap_app. by eexists.
  - destruct (plan env 0%nat); [done|].
    destruct (active_rows symbol st); [done|].
    destruct (plan env 1%nat); [done|]. destruct (plan env 2%nat); [done|].
    apply without_entry_row_keys.
  - destruct (plan env 0%nat); [done|].
    destruct (active_rows symbol st); destruct (plan env 1%nat); try done.
    by destruct (plan env 2%nat).
Qed.

(** X8: adding or removing one symbol leaves the active rows of every other
    symbol as they are, whatever faults are met. *)
Theorem watchlist_other_symbols_untouched env symbol other st :
  other ≠ symbol →
  active_rows other (snd (add_to_watchlist env symbol st)) = active_rows other st
  ∧ active_rows other (snd (remove_from_watchlist env symbol st)) = active_rows other st.
Proof.
  intros Hne. rewrite add_to_watchlist_run, remove_from_watchlist_run. split.
  - destruct (plan env 0%nat); [done|].
    destruct (active_rows symbol st); [|done].
    destruct (plan env 1%nat); [done|]. simpl.
    rewrite active_rows_with_entry, decide_False by done. apply app_nil_r.
  - destruct (plan env 0%nat); [done|].
    destruct (active_rows symbol st); [done|].
    destruct (plan env 1%nat); [done|]. destruct (plan env 2%nat); [done|]. simpl.
    by rewrite active_rows_without_entry, decide_False.
Qed.

(** X9: after a fault-free [remove] and a fault-free [add] of the same
    symbol, from any table, the [add] returns [True], the symbol has exactly
    one active row, stamped with the clock of the [add], and the table is one
    row longer: re-adding makes a new row and never revives an old one. *)
Theorem remove_then_add_reactivates env1 env2 symbol st :
  first_fault (plan env1) 3 = None → first_fault (plan env2) 2 = None →
  let st' := snd (add_to_watchlist env2 symbol
                    (snd (remove_from_watchlist env1 symbol st))) in
  (add_to_watchlist env2 symbol (snd (remove_from_watchlist env1 symbol st))).1
    = Returned true
  ∧ active_rows symbol st' = [UserWatchlist.mk symbol (utcnow env2) true]
  ∧ (length (user_watchlist st') = S (length (user_watchlist st)))%nat.
Proof.
  unfold first_fault. simpl. intros H1 H2.
  destruct (plan env1 0%nat) eqn:H10; [done|].
  destruct (plan env1 1%nat) eqn:H11; [done|].
  destruct (plan env1 2%nat) eqn:H12; [done|].
  destruct (plan env2 0%nat) eqn:H20; [done|].
  destruct (plan env2 1%nat) eqn:H21; [done|]. clear H1 H2.
  set (st1 := snd (remove_from_watchlist env1 symbol st)).
  assert (Hgone : active_rows symbol st1 = []).
  { unfold st1. rewrite remove_from_watchlist_run, H10, H11, H12.
    destruct (active_rows symbol st) eqn:Hact; simpl; [done|].
    by rewrite active_rows_without_entry, decide_True. }
  assert (Hlen : length (user_watchlist st1) = length (user_watchlist st)).
  { unfold st1. rewrite remove_from_watchlist_run, H10, H11, H12.
    destruct (active_rows symbol st); simpl; [done|]. by rewrite length_fmap. }
  rewrite add_to_watchlist_run, H20, H21, Hgone. simpl.
  split; [done|]. split.
  - by rewrite active_rows_with_entry, Hgone, decide_True.
  - rewrite length_app, Hlen. simpl. lia.
Qed.

Lemma active_symbols_NoDup (rows : list UserWatchlist.t) :
  (∀ s, (length (filter (active_for s) rows) ≤ 1)%nat) →
  NoDup (UserWatchlist.symbol <$> filter (λ r, UserWatchlist.is_active r = true) rows).
Proof.
  induction rows as [|r rows IH]; intros Hone; [constructor|].
  assert (Hrest : ∀ s, (length (filter (active_for s) rows) ≤ 1)%nat).
  { intros s. specialize (Hone s). rewrite filter_cons in Hone.
    case_decide; simpl in Hone; lia. }
  rewrite filter_cons. case_decide as Hact; [|by apply IH].
  rewrite fmap_cons. constructor; [|by apply IH].
  intros Hin. apply list_elem_of_fmap in Hin as (r' & Hs & Hr').
  apply list_elem_of_filter in Hr' as [Hact' Hr'].
  specialize (Hone (UserWatchlist.symbol r)).
  rewrite filter_cons_True in Hone by done. simpl in Hone.
  assert (Hr'' : r' ∈ filter (active_for (UserWatchlist.symbol r)) rows).
  { apply list_elem_of_filter. by repeat split. }
  destruct (filter (active_for (UserWatchlist.symbol r)) rows); simpl in Hone; [|lia].
  by apply not_elem_of_nil in Hr''.
Qed.

(** X10: on a table with at most one active row per symbol, [get_watchlist]
    lists no symbol twice. *)
Theorem get_watchlist_no_duplicates env st :
  single_active st →
  ∃ l, get_watchlist env st = (Returned l, st) ∧ NoDup l.
Proof.
  intros Hone. rewrite get_watchlist_run. eexists. split; [reflexivity|].
  destruct (plan env 0%nat); [constructor|].
  unfold order_by_desc. rewrite order_by_perm. by apply active_symbols_NoDup.
Qed.

(** * Further properties of the page script *)

(** ** Fetching *)

Lemma fetch_live_success w symbol period interval st hist info v :
  Ticker.history (yf_Ticker w symbol) period interval = Returned hist →
  Ticker.info (yf_Ticker w symbol) = Returned info →
  info !! "regularMarketPrice" = Some v →
  fetch_live w symbol period interval st =
    (Returned (mkFetchResult (Some hist) (Some info) true None),
     live_store w symbol hist info st).
Proof.
  intros Hhist Hinfo Hprice. unfold fetch_live, call, live_store.
  rewrite !bind_run, Hhist. rewrite !bind_run, Hinfo. rewrite !bind_run, Hprice.
  unfold ret at 1. rewrite !bind_run.
  assert (Hsize : size info ≠ 0%nat).
  { intros Hz. apply map_size_empty_iff in Hz. subst info.
    by rewrite lookup_empty in Hprice. }
  destruct hist as [|b hist].
  - unfold ret at 1. rewrite decide_False by done. rewrite !bind_run.
    destruct (save_company_info_returns (env_save_company_info w) symbol info st)
      as (b2 & st2 & Hsave2).
    by rewrite Hsave2.
  - rewrite !bind_run.
    destruct (save_stock_data_returns (env_save_stock_data w) symbol (b :: hist) st)
      as (b1 & st1 & Hsave).
    rewrite Hsave. unfold ret at 1. rewrite decide_False by done. rewrite !bind_run.
    simpl.
    destruct (save_company_info_returns (env_save_company_info w) symbol info st1)
      as (b2 & st2 & Hsave2).
    by rewrite Hsave2.
Qed.

Lemma fetch_data_live w symbol period interval st hist info v :
  Ticker.history (yf_Ticker w symbol) period interval = Returned hist →
  Ticker.info (yf_Ticker w symbol) = Returned info →
  info !! "regularMarketPrice" = Some v →
  fetch_data w symbol period interval st =
    (Returned (mkFetchResult (Some hist) (Some info) true None),
     live_store w symbol hist info st).
Proof.
  intros Hhist Hinfo Hprice.
  destruct (fetch_data_run w symbol period interval st) as (c & ci & _ & _ & ->).
  by erewrite fetch_live_success.
Qed.

(** X11: [fetch_data] never raises: its two cache reads always bind
    [cached] and [cached_info], so its [except] clause cannot meet an unbound
    local. *)
Theorem fetch_data_never_raises w symbol period interval st :
  ∃ r st', fetch_data w symbol period interval st = (Returned r, st').
Proof.
  destruct (fetch_data_run w symbol period interval st) as (c & ci & _ & _ & ->).
  destruct (fetch_live w symbol period interval st) as [[r|e] st']; [by eauto|].
  destruct c, ci; simpl; eauto.
Qed.

(** X12: when the provider answers and the metadata has a
    ['regularMarketPrice'], [fetch_data] returns the live bars and metadata
    with [success = True], whatever faults the two saves meet.  It leaves the
    watchlist alone, saves no bar when the frame is empty, refreshes the bars
    when the save meets no fault, and stores the snapshot when that save
    meets no fault. *)
Theorem fetch_data_live_success w symbol period interval st hist info v :
  Ticker.history (yf_Ticker w symbol) period interval = Returned hist →
  Ticker.info (yf_Ticker w symbol) = Returned info →
  info !! "regularMarketPrice" = Some v →
  ∃ st',
    fetch_data w symbol period interval st =
      (Returned (mkFetchResult (Some hist) (Some info) true None), st')
    ∧ user_watchlist st' = user_watchlist st
    ∧ (hist = [] → stock_data st' = stock_data st)
    ∧ (first_fault (plan (env_save_stock_data w)) (length hist + 2) = None →
       hist ≠ [] →
       stock_data st' = stock_data (refreshed (env_save_stock_data w) symbol hist st))
    ∧ (first_fault (plan (env_save_company_info w)) 3 = None →
       company_info st' !! symbol
       = Some (company_values info (utcnow (env_save_company_info w)))).
Proof.
  intros Hhist Hinfo Hprice. eexists. split; [by eapply fetch_data_live|].
  unfold live_store. rewrite save_company_info_run.
  set (st1 := match hist with [] => st | _ => _ end).
  assert (H1 : user_watchlist st1 = user_watchlist st).
  { unfold st1. destruct hist; [done|]. rewrite save_stock_data_run.
    by destruct (first_fault _ _). }
  split; [|split; [|split]].
  - by destruct (first_fault _ _).
  - intros ->. by destruct (first_fault _ _).
  - intros Hok Hne. unfold st1. destruct hist as [|b hist]; [congruence|].
    rewrite save_stock_data_run, Hok.
    destruct (first_fault (plan (env_save_company_info w)) _); reflexivity.
  - intros Hok.
    assert (Hok' : first_fault (plan (env_save_company_info w))
                     (match company_info st1 !! symbol with Some _ => 3 | None => 2 end)%nat
                   = None).
    { destruct (company_info st1 !! symbol); [done|].
      unfold first_fault in Hok |- *. simpl in Hok |- *.
      destruct (plan (env_save_company_info w) 0%nat); [done|].
    by destruct (plan (env_save_company_info w) 1%nat). }
    rewrite Hok'. simpl. apply lookup_insert_eq.
Qed.



(** ** The currency symbol *)

Lemma get_currency_symbol_snapshot company :
  get_currency_symbol (Some (info_of_company company)) = "$".
Proof.
  unfold get_currency_symbol.
  rewrite decide_False.
  - unfold dict_get. rewrite info_of_company_other; [done|].
    apply (bool_decide_unpack _). by vm_compute.
  - intros Hz. apply map_size_empty_iff in Hz.
    apply (f_equal (λ d : InfoDict, d !! "longName")) in Hz.
    unfold info_of_company in Hz. by rewrite lookup_insert_eq, lookup_empty in Hz.
Qed.

(** X14: whenever the live part of [fetch_data] raises, the currency symbol
    the page derives from the result is ['$'], whatever currency the provider
    once reported: the snapshot keeps no ['financialCurrency']. *)
Theorem fallback_currency_is_dollar w symbol period interval st e st' :
  fetch_live w symbol period interval st = (Raised e, st') →
  ∃ r, fetch_data w symbol period interval st = (Returned r, st)
       ∧ get_currency_symbol (info r) = "$".
Proof.
  intros Hlive. pose proof (fetch_live_raised _ _ _ _ _ _ _ Hlive) as ->.
  destruct (fetch_data_run w symbol period interval st)
    as (c & ci & Hc & Hci & Hrun).
  rewrite Hlive in Hrun. rewrite get_company_info_from_db_run in Hci.
  injection Hci as <-.
  destruct c as [bars|]; simpl in Hrun.
  - destruct (plan (env_cached_info w) 0%nat).
    + eexists. split; [exact Hrun|]. done.
    + destruct (company_info st !! symbol) as [company|]; simpl in Hrun;
        (eexists; split; [exact Hrun|]); simpl; [|done].
      apply get_currency_symbol_snapshot.
  - eexists. split; [exact Hrun|]. done.
Qed.

(** X15: [get_currency_symbol] always returns one of the three symbols; it
    returns the rupee sign exactly when the dictionary maps
    ['financialCurrency'] to ['INR'], the euro sign exactly when it maps it to
    ['EUR'], and the dollar sign in every other case, including [None], an
    empty dictionary, a missing key and a value that is not a string. *)
Theorem get_currency_symbol_cases info :
  get_currency_symbol info ∈ ["₹"; "$"; "€"]
  ∧ (get_currency_symbol info = "₹"
     ↔ ∃ d, info = Some d ∧ d !! "financialCurrency" = Some (PyStr "INR"))
  ∧ (get_currency_symbol info = "€"
     ↔ ∃ d, info = Some d ∧ d !! "financialCurrency" = Some (PyStr "EUR")).
Proof.
  assert (Hempty : ∀ (d : InfoDict) k x, size d = 0%nat → d !! k = Some x → False).
  { intros d k x Hz Hk. apply map_size_empty_iff in Hz. subst d.
    by rewrite lookup_empty in Hk. }
  unfold get_currency_symbol, dict_get. destruct info as [d|].
  - destruct (decide (size d = 0%nat)) as [Hz|Hz].
    + simpl. split; [set_solver|]. split; (split; [done|]);
        intros (d' & [= <-] & Hk); by destruct (Hempty _ _ _ Hz Hk).
    + destruct (d !! "financialCurrency") as [[|c| |]|] eqn:Hk;
        try (split; [set_solver|]; split; (split; [done|]);
             intros (d' & [= <-] & Hk'); congruence).
      repeat case_decide; subst;
        (split; [set_solver|]); split; (split; [try done|]);
        try (intros (d' & [= <-] & Hk'); congruence);
        intros _; by exists d.
  - simpl. split; [set_solver|]. split; (split; [done|]); by intros (d & [=] & _).
Qed.

(** ** Substrings *)

Lemma prefix_spec (a b : string) :
  String.prefix a b = true ↔ ∃ s, b = (a ++ s)%string.
Proof.
  revert b. induction a as [|c a IH]; intros b.
  - split; [intros _; by exists b|]. intros _. by destruct b.
  - destruct b as [|c' b]; simpl; [split; [done|by intros [s [=]]]|].
    destruct (Ascii.ascii_dec c c') as [->|Hne].
    + rewrite IH. split; intros [s Hs]; exists s.
      * simpl. by rewrite Hs.
      * simpl in Hs. by injection Hs.
    + split; [done|]. intros [s [= ? _]]. done.
Qed.

Lemma contains_unfold (needle hay : string) :
  contains needle hay =
  String.prefix needle hay ||
  match hay with
  | EmptyString => false
  | String _ hay' => contains needle hay'
  end.
Proof. by destruct hay. Qed.

Lemma contains_spec (needle hay : string) :
  contains needle hay = true ↔ ∃ p s, hay = (p ++ needle ++ s)%string.
Proof.
  induction hay as [|c hay IH]; rewrite contains_unfold, orb_true_iff, prefix_spec.
  - split.
    + intros [[s Hs]|[=]]. by exists "", s.
    + intros (p & s & Hp). left. destruct p; [by exists s|done].
  - rewrite IH. split.
    + intros [[s Hs]|(p & s & Hp)]; [by exists "", s|].
      exists (String c p), s. simpl. by rewrite Hp.
    + intros (p & s & Hp). destruct p as [|c' p]; [left; by exists s|].
      right. exists p, s. simpl in Hp. by injection Hp.
Qed.

Lemma string_app_assoc (a b c : string) : ((a ++ b) ++ c = a ++ (b ++ c))%string.
Proof.
  induction a as [|x a IH]; [reflexivity|].
  change (String x ((a ++ b) ++ c) = String x (a ++ (b ++ c)))%string. by f_equal.
Qed.

Lemma contains_trans (a b c : string) :
  contains a b = true → contains b c = true → contains a c = true.
Proof.
  rewrite !contains_spec. intros (p1 & s1 & ->) (p2 & s2 & ->).
  exists (p2 ++ p1)%string, (s1 ++ s2)%string.
  by rewrite !string_app_assoc.
Qed.

Lemma prefix_refl (a : string) : String.prefix a a = true.
Proof.
  induction a as [|c a IH]; simpl; [done|].
  by destruct (Ascii.ascii_dec c c).
Qed.

Lemma ends_with_contains (suffix s : string) :
  ends_with suffix s = true → contains suffix s = true.
Proof.
  induction s as [|c s IH]; rewrite contains_unfold.
  - simpl. rewrite orb_false_r. intros <-%bool_decide_eq_true. reflexivity.
  - change (ends_with suffix (String c s))
      with (bool_decide (String c s = suffix) || ends_with suffix s).
    intros [<-%bool_decide_eq_true|Hs]%orb_true_iff.
    + by rewrite prefix_refl.
    + rewrite IH by done. apply orb_true_r.
Qed.

(** ** Looking up a symbol *)

Lemma first_found_Some {X R} (f : X → option R) (xs : list X) r :
  first_found f xs = Some r → ∃ x, x ∈ xs ∧ f x = Some r.
Proof.
  induction xs as [|x xs IH]; simpl; [done|].
  destruct (f x) as [r'|] eqn:Hx.
  - intros [= <-]. exists x. split; [left|done].
  - intros (x' & Hin & Hf)%IH. exists x'. split; [by right|done].
Qed.

Lemma probe_Some yf sym r :
  probe yf sym = Some r →
  ∃ meta, r = (sym, meta) ∧ Ticker.info (yf sym) = Returned meta
          ∧ is_Some (meta !! "regularMarketPrice").
Proof.
  unfold probe. destruct (Ticker.info (yf sym)) as [meta|e]; [|done].
  destruct (meta !! "regularMarketPrice") eqn:Hp; [|done].
  intros [= <-]. exists meta. by rewrite Hp.
Qed.

(** X16: what [search_symbol] returns is an answer of the provider: the
    metadata is the provider's metadata of the returned symbol and has a
    ['regularMarketPrice'], and the symbol is the query, or the query with
    ['.NS'] appended (only for a query without a dot), or the ticker of a
    listed company whose name contains the query. *)
Theorem search_symbol_sound yf query sym meta :
  search_symbol yf query = Some (sym, meta) →
  Ticker.info (yf sym) = Returned meta
  ∧ is_Some (meta !! "regularMarketPrice")
  ∧ (sym = query
     ∨ (sym = (query ++ ".NS")%string ∧ contains "." query = false)
     ∨ ∃ name, (name, sym) ∈ common_us_stocks ∧ contains query name = true).
Proof.
  unfold search_symbol.
  destruct (first_found (probe yf) (symbols_to_try query)) as [r|] eqn:Hfirst.
  - intros [= ->]. apply first_found_Some in Hfirst as (s & Hs & Hprobe).
    apply probe_Some in Hprobe as (meta' & [= <- <-] & Hinfo & Hprice).
    split; [done|]. split; [done|].
    unfold symbols_to_try in Hs. apply elem_of_cons in Hs as [->|Hs]; [by left|].
    right. left.
    destruct (ends_with ".NS" query); simpl in Hs; [by apply not_elem_of_nil in Hs|].
    destruct (contains "." query); simpl in Hs; [by apply not_elem_of_nil in Hs|].
    by apply list_elem_of_singleton in Hs.
  - intros (entry & Hentry & Hf)%first_found_Some.
    destruct (contains query entry.1) eqn:Hc; [|done].
    apply probe_Some in Hf as (meta' & [= -> <-] & Hinfo & Hprice).
    split; [done|]. split; [done|]. right. right.
    exists entry.1. split; [|done]. by destruct entry.
Qed.

(** X17: the order of the probes: a query the provider knows is returned as
    it is; failing that, for a query without a dot, the ['.NS'] symbol is
    returned when the provider knows it, before any company name is
    looked at. *)
Theorem search_symbol_priority yf query :
  (∀ r, probe yf query = Some r → search_symbol yf query = Some r)
  ∧ (∀ r, probe yf query = None → contains "." query = false →
          probe yf (query ++ ".NS")%string = Some r →
          search_symbol yf query = Some r).
Proof.
  unfold search_symbol, symbols_to_try. split.
  - intros r Hr. simpl. by rewrite Hr.
  - intros r Hnone Hdot Hr. simpl. rewrite Hnone, Hdot.
    assert (Hns : ends_with ".NS" query = false).
    { destruct (ends_with ".NS" query) eqn:He; [|done].
      assert (Hc : contains ".NS" query = true) by by apply ends_with_contains.
      assert (Hd : contains "." ".NS" = true) by reflexivity.
      pose proof (contains_trans _ _ _ Hd Hc) as Hdot'. congruence. }
    rewrite Hns. simpl. by rewrite Hr.
Qed.

Lemma common_us_stocks_no_dot :
  Forall (λ entry, contains "." entry.1 = false) common_us_stocks.
Proof. unfold common_us_stocks. repeat constructor. Qed.

Lemma names_skip_dotted yf query (entries : list (string * string)) :
  Forall (λ entry, contains "." entry.1 = false) entries →
  contains "." query = true →
  first_found (λ entry, if contains query entry.1 then probe yf entry.2 else None)
              entries = None.
Proof.
  intros Hnames Hdot. induction Hnames as [|entry entries Hentry _ IH]; [done|].
  cbn [first_found]. destruct (contains query entry.1) eqn:Hc; [|done].
  pose proof (contains_trans _ _ _ Hdot Hc). congruence.
Qed.

(** X18: for a query that contains a dot, [search_symbol] probes that exact
    symbol only: no ['.NS'] is appended and no company name can match. *)
Theorem search_symbol_dotted yf query :
  contains "." query = true → search_symbol yf query = probe yf query.
Proof.
  intros Hdot. unfold search_symbol, symbols_to_try.
  rewrite Hdot, andb_false_r. cbn [first_found].
  destruct (probe yf query) as [r|]; [done|].
  by apply names_skip_dotted; [apply common_us_stocks_no_dot|].
Qed.

(** X19: a symbol found by [search_symbol] is never reported as not found by
    [fetch_data] on the same provider: when its history is answered, the
    fetch returns the live bars and the found metadata with
    [success = True]. *)
Theorem search_then_fetch w query sym meta period interval hist st :
  search_symbol (yf_Ticker w) query = Some (sym, meta) →
  Ticker.history (yf_Ticker w sym) period interval = Returned hist →
  ∃ st', fetch_data w sym period interval st =
           (Returned (mkFetchResult (Some hist) (Some meta) true None), st').
Proof.
  intros Hsearch Hhist.
  assert (Hinfo : Ticker.info (yf_Ticker w sym) = Returned meta
                  ∧ is_Some (meta !! "regularMarketPrice")).
  { unfold search_symbol in Hsearch.
    destruct (first_found (probe (yf_Ticker w)) (symbols_to_try query)) as [r|] eqn:Hf.
    - injection Hsearch as ->. apply first_found_Some in Hf as (s & _ & Hp).
      apply probe_Some in Hp as (meta' & [= <- <-] & ? & ?). by split.
    - apply first_found_Some in Hsearch as (entry & _ & Hp).
      destruct (contains query entry.1); [|done].
      apply probe_Some in Hp as (meta' & [= <- <-] & ? & ?). by split. }
  destruct Hinfo as [Hinfo [v Hv]]. eexists. by eapply fetch_data_live.
Qed.

(** ** The prices on the page *)

Lemma iloc_from_end_spec {X} (s : list X) (k : nat) :
  (0 < k)%nat →
  iloc_from_end s k =
  if decide (k ≤ length s)%nat
  then match s !! (length s - k)%nat with
       | Some x => Returned x
       | None => Raised IndexError
       end
  else Raised IndexError.
Proof.
  intros Hk. unfold iloc_from_end. case_decide as Hle.
  - rewrite reverse_lookup by lia. by replace (length s - S (k - 1))%nat with (length s - k)%nat by lia.
  - rewrite lookup_ge_None_2; [done|]. rewrite length_reverse. lia.
Qed.


(** X21: when the provider answers fewer than two bars together with a
    ['regularMarketPrice'], [fetch_data] still reports [success = True], and
    the page's read of the two prices from that result raises
    [IndexError]. *)
Theorem short_history_breaks_page w symbol period interval st hist meta v :
  Ticker.history (yf_Ticker w symbol) period interval = Returned hist →
  Ticker.info (yf_Ticker w symbol) = Returned meta →
  meta !! "regularMarketPrice" = Some v →
  (length hist < 2)%nat →
  ∃ r st' shown shown_meta,
    fetch_data w symbol period interval st = (Returned r, st')
    ∧ success r = true
    ∧ historical r = Some shown ∧ info r = Some shown_meta
    ∧ page_prices shown shown_meta = Raised IndexError.
Proof.
  intros Hhist Hinfo Hprice Hlen.
  eexists _, _, hist, meta. split; [by eapply fetch_data_live|].
  repeat split. unfold page_prices. rewrite !iloc_from_end_spec by lia.
  rewrite length_fmap. case_decide; [|done].
  destruct (_ !! (length hist - 1)%nat); [|done]. by rewrite decide_False by lia.
Qed.

(** ** The further statements at sample inputs *)



Lemma get_cached_stock_data_longer_period_witness :
  ∃ df2, (get_cached_stock_data (sample_env 101) "AAPL" "1y" sample_store).1
         = Returned (Some df2)
         ∧ [sample_bar 80 2; sample_bar 99 3] ⊆ df2.
Proof.
  apply (get_cached_stock_data_longer_period (sample_env 101) "AAPL" "1mo" "1y"
           sample_store [sample_bar 80 2; sample_bar 99 3]).
  - vm_compute. discriminate.
  - reflexivity.
  - reflexivity.
Defined.

Lemma watchlist_other_symbols_untouched_witness :
  active_rows "TSLA" (snd (add_to_watchlist (sample_env 3) "MSFT" sample_watchlist))
    = active_rows "TSLA" sample_watchlist
  ∧ active_rows "TSLA" (snd (remove_from_watchlist (sample_env 3) "AAPL" sample_watchlist))
    = active_rows "TSLA" sample_watchlist.
Proof.
  split.
  - apply (watchlist_other_symbols_untouched (sample_env 3) "MSFT" "TSLA"
             sample_watchlist). discriminate.
  - apply (watchlist_other_symbols_untouched (sample_env 3) "AAPL" "TSLA"
             sample_watchlist). discriminate.
Defined.

Lemma remove_then_add_reactivates_witness :
  active_rows "AAPL"
    (snd (add_to_watchlist (sample_env 4) "AAPL"
            (snd (remove_from_watchlist (sample_env 3) "AAPL" sample_watchlist))))
    = [UserWatchlist.mk "AAPL" (4 * day) true]
  ∧ length (user_watchlist
              (snd (add_to_watchlist (sample_env 4) "AAPL"
                      (snd (remove_from_watchlist (sample_env 3) "AAPL"
                                                  sample_watchlist)))))
    = 3%nat.
Proof.
  destruct (remove_then_add_reactivates (sample_env 3) (sample_env 4) "AAPL"
              sample_watchlist eq_refl eq_refl) as (_ & Hrows & Hlen).
  split; [exact Hrows | exact Hlen].
Defined.

Lemma get_watchlist_no_duplicates_witness :
  ∃ l, get_watchlist (sample_env 3) sample_watchlist = (Returned l, sample_watchlist)
       ∧ NoDup l.
Proof.
  apply (get_watchlist_no_duplicates (sample_env 3) sample_watchlist).
  apply sample_watchlist_single_active.
Defined.

Lemma fetch_data_live_success_witness :
  ∃ st', fetch_data live_world "AAPL" "1mo" "1d" sample_store =
           (Returned (mkFetchResult (Some sample_bars2) (Some sample_meta) true None), st')
         ∧ stock_data st'
           = stock_data (refreshed (sample_env 101) "AAPL" sample_bars2 sample_store)
         ∧ company_info st' !! "AAPL"
           = Some (company_values sample_meta (101 * day)).
Proof.
  destruct (fetch_data_live_success live_world "AAPL" "1mo" "1d" sample_store
              sample_bars2 sample_meta (PyFloat 1.75%float) eq_refl eq_refl eq_refl)
    as (st' & Hfetch & _ & _ & Hbars & Hsnap).
  exists st'. split; [exact Hfetch|]. split.
  - apply Hbars; [reflexivity | discriminate].
  - apply Hsnap. reflexivity.
Defined.


Lemma fallback_currency_is_dollar_witness :
  (∃ r, fetch_data (sample_world offline) "AAPL" "1mo" "1d"
          (fetch_data live_world "AAPL" "1y" "1d" empty_store).2
        = (Returned r, (fetch_data live_world "AAPL" "1y" "1d" empty_store).2)
        ∧ get_currency_symbol (info r) = "$")
  ∧ get_currency_symbol (Some sample_meta) = "₹".
Proof.
  split; [|reflexivity].
  apply (fallback_currency_is_dollar (sample_world offline) "AAPL" "1mo" "1d"
           (fetch_data live_world "AAPL" "1y" "1d" empty_store).2
           (mkExn "ConnectionError" "provider unreachable")
           (fetch_data live_world "AAPL" "1y" "1d" empty_store).2).
  reflexivity.
Defined.

Lemma search_symbol_sound_witness :
  search_symbol knows_AAPL "APP" = Some ("AAPL", sample_meta)
  ∧ Ticker.info (knows_AAPL "AAPL") = Returned sample_meta
  ∧ is_Some (sample_meta !! "regularMarketPrice").
Proof.
  assert (Hfound : search_symbol knows_AAPL "APP" = Some ("AAPL", sample_meta))
    by reflexivity.
  destruct (search_symbol_sound knows_AAPL "APP" "AAPL" sample_meta Hfound)
    as (Hinfo & Hprice & _).
  split; [exact Hfound|]. split; [exact Hinfo | exact Hprice].
Defined.

Lemma search_symbol_priority_witness :
  search_symbol (λ _, one_bar) "META" = Some ("META", sample_meta)
  ∧ search_symbol (λ sym, if decide (sym = "APPLE.NS") then one_bar else knows_AAPL sym)
      "APPLE"
    = Some ("APPLE.NS", sample_meta).
Proof.
  split.
  - apply (proj1 (search_symbol_priority (λ _, one_bar) "META")). reflexivity.
  - apply (proj2 (search_symbol_priority
                    (λ sym, if decide (sym = "APPLE.NS") then one_bar else knows_AAPL sym)
                    "APPLE")); reflexivity.
Defined.

Lemma search_symbol_dotted_witness :
  search_symbol (λ sym, if decide (sym = "TCS.BO") then unknown_symbol else one_bar)
    "TCS.BO" = None.
Proof.
  rewrite (search_symbol_dotted
             (λ sym, if decide (sym = "TCS.BO") then unknown_symbol else one_bar)
             "TCS.BO" eq_refl).
  reflexivity.
Defined.

Lemma search_then_fetch_witness :
  ∃ st', fetch_data live_world "AAPL" "1mo" "1d" empty_store =
           (Returned (mkFetchResult (Some sample_bars2) (Some sample_meta) true None), st').
Proof.
  apply (search_then_fetch live_world "APPLE" "AAPL" sample_meta "1mo" "1d"
           sample_bars2 empty_store); reflexivity.
Defined.


Lemma short_history_breaks_page_witness :
  ∃ r st' shown shown_meta,
    fetch_data (sample_world one_bar) "AAPL" "1mo" "1d" empty_store = (Returned r, st')
    ∧ success r = true
    ∧ historical r = Some shown ∧ info r = Some shown_meta
    ∧ page_prices shown shown_meta = Raised IndexError.
Proof.
  apply (short_history_breaks_page (sample_world one_bar) "AAPL" "1mo" "1d" empty_store
           [sample_bar 99 3] sample_meta (PyFloat 1.75%float));
    [reflexivity | reflexivity | reflexivity | simpl; lia].
Defined.
